(** * The mentor chat controller (backend/controllers/mentorController.js)

    A shallow embedding of [getChatResponse]: the JavaScript strings and the
    regular expressions it tests, the collaborators it awaits (profile store,
    completion engine, random source) as a world it is run in, and the
    handler itself in a small trace-and-exception monad.  Case conversion
    follows the ECMAScript algorithm over code points; the Unicode tables
    it reads are a parameter, [CaseData].  The state, the fetch effect and
    the select of the skill evolution dashboard
    (frontend/src/pages/SkillEvolutionDashboard.jsx) are in [Dashboard]. *)

From Stdlib Require Import ZArith List Bool String Ascii Lia.
From Stdlib Require Import QArith Lqa Permutation Sorted.
Import ListNotations.
Open Scope Z_scope.

(* ================================================================= *)
(** ** JavaScript strings *)

(** A JavaScript string is a sequence of UTF-16 code units. *)
Definition jsstring := list Z.

(** Source literals are written as they stand in the controller; [js]
    turns the UTF-8 bytes of the literal into UTF-16 code units. *)
Definition utf16_of_code_point (cp : Z) : jsstring :=
  if cp <? 65536 then [cp]
  else [55296 + Z.shiftr (cp - 65536) 10; 56320 + Z.land (cp - 65536) 1023].

Definition cont (b : Z) : Z := Z.land b 63.

Fixpoint utf8_decode (bs : list Z) : jsstring :=
  match bs with
  | [] => []
  | b0 :: r0 =>
    if b0 <? 128 then b0 :: utf8_decode r0
    else match r0 with
    | [] => []
    | b1 :: r1 =>
      if b0 <? 224 then
        utf16_of_code_point (Z.shiftl (Z.land b0 31) 6 + cont b1) ++ utf8_decode r1
      else match r1 with
      | [] => []
      | b2 :: r2 =>
        if b0 <? 240 then
          utf16_of_code_point
            (Z.shiftl (Z.land b0 15) 12 + Z.shiftl (cont b1) 6 + cont b2)
            ++ utf8_decode r2
        else match r2 with
        | [] => []
        | b3 :: r3 =>
          utf16_of_code_point
            (Z.shiftl (Z.land b0 7) 18 + Z.shiftl (cont b1) 12
             + Z.shiftl (cont b2) 6 + cont b3)
            ++ utf8_decode r3
        end
      end
    end
  end.

Definition js (s : string) : jsstring :=
  utf8_decode (map (fun a => Z.of_N (N_of_ascii a)) (list_ascii_of_string s)).

(** Surrogate code units, and [StringToCodePoints]: a high surrogate
    followed by a low one is one code point; any other unit, a lone
    surrogate included, is a code point by itself. *)
Definition isHighSurrogate (c : Z) : bool := (55296 <=? c) && (c <=? 56319).
Definition isLowSurrogate (c : Z) : bool := (56320 <=? c) && (c <=? 57343).

Definition headLow (s : list Z) : bool :=
  match s with
  | [] => false
  | c :: _ => isLowSurrogate c
  end.

(** No lone high surrogate is followed by a lone low one: what reading
    code points always yields. *)
Fixpoint noPair (l : list Z) : bool :=
  match l with
  | [] => true
  | a :: r => negb (isHighSurrogate a && headLow r) && noPair r
  end.

Fixpoint codePoints (s : jsstring) : list Z :=
  match s with
  | [] => []
  | h :: r =>
    match r with
    | l :: r' =>
      if isHighSurrogate h && isLowSurrogate l
      then (65536 + (h - 55296) * 1024 + (l - 56320)) :: codePoints r'
      else h :: codePoints r
    | [] => [h]
    end
  end.

(** [CodePointsToString]: a supplementary code point is written as a
    surrogate pair. *)
Definition codeUnitsOf (cp : Z) : jsstring :=
  if (65536 <=? cp) && (cp <? 1114112)
  then [55296 + (cp - 65536) / 1024; 56320 + (cp - 65536) mod 1024]
  else [cp].

Definition codeUnits (cps : list Z) : jsstring := flat_map codeUnitsOf cps.

(** The Unicode data case conversion reads, whatever the version of the
    tables the engine ships: the full lower-case and upper-case mapping of
    a code point (UnicodeData and the unconditional entries of
    SpecialCasing; a code point without mapping maps to itself) and the
    properties Cased and Case_Ignorable. *)
Record CaseData : Type := {
  lowerOf : Z -> list Z;
  upperOf : Z -> list Z;
  cased : Z -> bool;
  caseIgnorable : Z -> bool
}.

(** Skipping case-ignorable code points, is the next one cased? *)
Fixpoint nextIsCased (U : CaseData) (l : list Z) : bool :=
  match l with
  | [] => false
  | c :: r => if caseIgnorable U c then nextIsCased U r else cased U c
  end.

(** The Final_Sigma condition of SpecialCasing, the only
    language-independent context rule: sigma is final after a cased letter
    and not before one.  [before] holds the preceding code points, nearest
    first. *)
Definition finalSigma (U : CaseData) (before after : list Z) : bool :=
  nextIsCased U before && negb (nextIsCased U after).

Fixpoint lowerCodePoints (U : CaseData) (before cps : list Z) : list Z :=
  match cps with
  | [] => []
  | c :: rest =>
    (if (c =? 931) && finalSigma U before rest then [962] else lowerOf U c)
      ++ lowerCodePoints U (c :: before) rest
  end.

(** [String.prototype.toLowerCase] and [String.prototype.toUpperCase]. *)
Definition toLowerCase (U : CaseData) (s : jsstring) : jsstring :=
  codeUnits (lowerCodePoints U [] (codePoints s)).

Definition toUpperCase (U : CaseData) (s : jsstring) : jsstring :=
  codeUnits (flat_map (upperOf U) (codePoints s)).

(** The code units [String.prototype.trim] strips: ECMAScript's WhiteSpace
    and LineTerminator. *)
Definition isWhiteSpace (c : Z) : bool :=
  ((9 <=? c) && (c <=? 13)) || (c =? 32) || (c =? 160) || (c =? 5760)
  || ((8192 <=? c) && (c <=? 8202)) || (c =? 8232) || (c =? 8233)
  || (c =? 8239) || (c =? 8287) || (c =? 12288) || (c =? 65279).

Fixpoint trimStart (s : jsstring) : jsstring :=
  match s with
  | [] => []
  | c :: r => if isWhiteSpace c then trimStart r else s
  end.

Definition trimEnd (s : jsstring) : jsstring := rev (trimStart (rev s)).

Definition trim (s : jsstring) : jsstring := trimEnd (trimStart s).

Fixpoint startsWith (s p : jsstring) {struct p} : bool :=
  match p, s with
  | [], _ => true
  | _ :: _, [] => false
  | a :: p', c :: s' => (a =? c) && startsWith s' p'
  end.

(** [String.prototype.includes]. *)
Fixpoint includes (s p : jsstring) : bool :=
  startsWith s p ||
  match s with
  | [] => false
  | _ :: s' => includes s' p
  end.

(** [Array.prototype.join] on strings. *)
Fixpoint join (sep : jsstring) (l : list jsstring) : jsstring :=
  match l with
  | [] => []
  | [x] => x
  | x :: r => x ++ sep ++ join sep r
  end.

(** [a || b] on a possibly missing string: the empty string and
    [undefined] are falsy. *)
Definition or_else (a : option jsstring) (b : jsstring) : jsstring :=
  match a with
  | Some (c :: r) => c :: r
  | _ => b
  end.

(** [arr[i]]: an index out of range reads [undefined]. *)
Definition index {A : Type} (l : list A) (i : Z) : option A :=
  if i <? 0 then None else nth_error l (Z.to_nat i).

(** What the theorems ask of the Unicode data.  On Basic Latin the
    mappings are the familiar ones and the letters are cased. *)
Definition lowerAscii (c : Z) : Z := if (65 <=? c) && (c <=? 90) then c + 32 else c.
Definition upperAscii (c : Z) : Z := if (97 <=? c) && (c <=? 122) then c - 32 else c.
Definition isAsciiLetter (c : Z) : bool :=
  ((65 <=? c) && (c <=? 90)) || ((97 <=? c) && (c <=? 122)).
Definition isBasicLatin (s : jsstring) : bool :=
  forallb (fun c => (0 <=? c) && (c <? 128)) s.

Record basicLatin (U : CaseData) : Prop := {
  ascii_lower : forall c, 0 <= c < 128 -> lowerOf U c = [lowerAscii c];
  ascii_upper : forall c, 0 <= c < 128 -> upperOf U c = [upperAscii c];
  ascii_cased :
    forall c, isAsciiLetter c = true -> cased U c = true /\ caseIgnorable U c = false
}.

(** A lower-case mapping yields code points that are lower case already,
    never yields nothing, and yields a surrogate only by keeping one;
    capital sigma maps to small sigma and final sigma is lower case. *)
Record lowerStable (U : CaseData) : Prop := {
  lower_fixed : forall c d, In d (lowerOf U c) -> lowerOf U d = [d];
  lower_nonempty : forall c, lowerOf U c <> [];
  lower_surrogate :
    forall c d,
      In d (lowerOf U c) -> isHighSurrogate d || isLowSurrogate d = true ->
      lowerOf U c = [c];
  lower_sigma : lowerOf U 931 = [963];
  lower_final_sigma : lowerOf U 962 = [962]
}.

(** White space has no case. *)
Record blanksUncased (U : CaseData) : Prop := {
  blank_lower : forall c, isWhiteSpace c = true -> lowerOf U c = [c];
  blank_uncased : forall c, isWhiteSpace c = true -> cased U c = false
}.

(* ================================================================= *)
(** ** Regular expressions *)

(** The fragment of ECMAScript patterns the controller uses (no flags). *)
Inductive regex : Type :=
| Chr (c : Z)
| Range (lo hi : Z)
| WordB
| Empty
| Seq (r1 r2 : regex)
| Alt (r1 r2 : regex)
| Opt (r : regex).

(** A match state: the code units already consumed, last one first, and
    the ones still ahead. *)
Definition mstate : Type := (jsstring * jsstring)%type.

Definition isWordChar (c : Z) : bool :=
  ((97 <=? c) && (c <=? 122)) || ((65 <=? c) && (c <=? 90))
  || ((48 <=? c) && (c <=? 57)) || (c =? 95).

Definition wordAt (s : jsstring) : bool :=
  match s with
  | [] => false
  | c :: _ => isWordChar c
  end.

(** [\b] holds where exactly one of the two neighbours is a word character. *)
Definition atBoundary (x : mstate) : bool := xorb (wordAt (fst x)) (wordAt (snd x)).

(** The matcher of the ECMAScript specification, in continuation-passing
    style: alternatives are tried left to right, [r?] is greedy. *)
Fixpoint matcher (r : regex) (x : mstate) (k : mstate -> bool) : bool :=
  match r with
  | Chr c =>
    match snd x with
    | d :: rest => if d =? c then k (d :: fst x, rest) else false
    | [] => false
    end
  | Range lo hi =>
    match snd x with
    | d :: rest => if (lo <=? d) && (d <=? hi) then k (d :: fst x, rest) else false
    | [] => false
    end
  | WordB => if atBoundary x then k x else false
  | Empty => k x
  | Seq r1 r2 => matcher r1 x (fun y => matcher r2 y k)
  | Alt r1 r2 => matcher r1 x k || matcher r2 x k
  | Opt r1 => matcher r1 x k || k x
  end.

(** [RegExp.prototype.test] without the global flag: the pattern is tried
    at every index from 0 to the length of the string. *)
Fixpoint scan (r : regex) (before after : jsstring) : bool :=
  matcher r (before, after) (fun _ => true) ||
  match after with
  | [] => false
  | c :: rest => scan r (c :: before) rest
  end.

Definition test (r : regex) (s : jsstring) : bool := scan r [] s.

(** Pattern text: a run of literal characters, and [(a|b|...)]. *)
Fixpoint lit (s : jsstring) : regex :=
  match s with
  | [] => Empty
  | c :: r => Seq (Chr c) (lit r)
  end.

Fixpoint alts (l : list jsstring) : regex :=
  match l with
  | [] => Empty
  | [w] => lit w
  | w :: r => Alt (lit w) (alts r)
  end.

(* ================================================================= *)
(** ** The request, the collaborators and the effects of the handler *)

(** An element of [history], and the body of the JSON reply. *)
Record Turn : Type := { role : jsstring; content : jsstring }.

(** [req.body]; [message] is [None] when the field is missing or is not a
    string, [history] is [None] when it is missing or null. *)
Record Body : Type := { message : option jsstring; history : option (list Turn) }.

(** [req]: [body] is [None] when no body was parsed, [user] is [None] when
    no authenticated user is attached; otherwise [user] holds [req.user.id]. *)
Record Req : Type := { body : option Body; user : option jsstring }.

(** A stored skill and the document [User.findById(..).select("skills")]
    resolves to. *)
Record Skill : Type := { skillName : jsstring; proficiency : jsstring }.
Record UserDoc : Type := { skills : option (list Skill) }.

(** What is sent to the completion engine. *)
Record Part : Type := { text : jsstring }.
Record Content : Type := { c_role : jsstring; parts : list Part }.

(** What the completion engine resolves to; every level may be missing. *)
Record RPart : Type := { r_text : option jsstring }.
Record RContent : Type := { r_parts : option (list RPart) }.
Record Candidate : Type := { r_content : option RContent }.
Record GResponse : Type := { candidates : option (list Candidate) }.
Record GResult : Type := { response : option GResponse }.

Inductive exn : Type :=
| TypeError
| Failure (reason : jsstring).

Inductive outcome (A : Type) : Type :=
| Resolved (a : A)
| Rejected (e : exn).
Arguments Resolved {A} a.
Arguments Rejected {A} e.

(** The world a request runs in.  [Math_random] is the numerator [n] of the
    double [n / 2^53] that [Math.random()] returns. *)
Record World : Type := {
  Math_random : Z;
  User_findById : jsstring -> outcome (option UserDoc);
  generateContent : list Content -> outcome (option GResult)
}.

Definition valid_random (w : World) : Prop := 0 <= Math_random w < 2 ^ 53.

(** The calls the handler makes, in the order it makes them. *)
Inductive event : Type :=
| CallRandom
| CallFindById (id : jsstring)
| CallGenerateContent (contents : list Content)
| CallConsoleError.

(** The HTTP reply: [res.json(..)] answers with status 200,
    [res.status(500).json(..)] with 500.  [r_body_content] is [None] when
    the [content] field holds [undefined]. *)
Record Res : Type := { status : Z; r_role : jsstring; r_body_content : option jsstring }.

(** Computations that log their calls and may throw. *)
Definition M (A : Type) : Type := list event -> (exn + A) * list event.

Definition ret {A : Type} (a : A) : M A := fun t => (inr a, t).

Definition throw {A : Type} (e : exn) : M A := fun t => (inl e, t).

Definition bind {A B : Type} (m : M A) (f : A -> M B) : M B :=
  fun t =>
    match m t with
    | (inr a, t') => f a t'
    | (inl e, t') => (inl e, t')
    end.

Definition try_catch {A : Type} (m : M A) (h : exn -> M A) : M A :=
  fun t =>
    match m t with
    | (inr a, t') => (inr a, t')
    | (inl e, t') => h e t'
    end.

Definition emit (ev : event) : M unit := fun t => (inr tt, t ++ [ev]).

(** [await p] after the call [ev] that produced [p]. *)
Definition await {A : Type} (ev : event) (p : outcome A) : M A :=
  fun t =>
    match p with
    | Resolved a => (inr a, t ++ [ev])
    | Rejected e => (inl e, t ++ [ev])
    end.

(** Reading a property of a value that may be [undefined]. *)
Definition deref {A : Type} (o : option A) : M A :=
  match o with
  | Some a => ret a
  | None => throw TypeError
  end.

Notation "x <- m ;; k" := (bind m (fun x => k))
  (at level 61, m at next level, right associativity).
Notation "m ;;; k" := (bind m (fun _ => k))
  (at level 61, right associativity).

(* ================================================================= *)
(** ** The skill evolution dashboard
       (frontend/src/pages/SkillEvolutionDashboard.jsx) *)

(** [a === b] on strings. *)
Fixpoint strictEq (a b : jsstring) : bool :=
  match a, b with
  | [], [] => true
  | x :: a', y :: b' => (x =? y) && strictEq a' b'
  | _, _ => false
  end.

(** [s.charAt(0)] and [s.slice(1)]. *)
Definition charAt0 (s : jsstring) : jsstring :=
  match s with
  | [] => []
  | c :: _ => [c]
  end.

Definition slice1 (s : jsstring) : jsstring :=
  match s with
  | [] => []
  | _ :: r => r
  end.

Module Dashboard.

(** A point of a series and an entry of the dashboard data.  JSON numbers
    are finite, so a demand score is a rational and the sign of a
    difference of two scores is the sign of their comparison. *)
Record Point : Type := { year : Z; demand_score : Q }.

Record Trend : Type := { skill : jsstring; history : list Point; forecast : list Point }.

(** [t.history.length ? t.history[t.history.length - 1].demand_score : 0] *)
Definition lastDemand (t : Trend) : Q :=
  match rev (history t) with
  | [] => 0%Q
  | p :: _ => demand_score p
  end.

(** The comparison function handed to [data.sort]. *)
Definition compareFn (a b : Trend) : Q := (lastDemand b - lastDemand a)%Q.

(** [Array.prototype.sort]: with a consistent comparison function the
    result is the stable sort, whatever algorithm the engine runs; an
    element goes before the first element it is not to come after. *)
Fixpoint insert (cmp : Trend -> Trend -> Q) (x : Trend) (l : list Trend) : list Trend :=
  match l with
  | [] => [x]
  | y :: r => if Qle_bool (cmp x y) 0 then x :: l else y :: insert cmp x r
  end.

Fixpoint arraySort (cmp : Trend -> Trend -> Q) (l : list Trend) : list Trend :=
  match l with
  | [] => []
  | x :: r => insert cmp x (arraySort cmp r)
  end.

(** The three [useState] cells of the component. *)
Record State : Type := {
  trendData : list Trend;
  isLoading : bool;
  selectedSkill : option Trend
}.

Definition initialState : State :=
  {| trendData := []; isLoading := true; selectedSkill := None |}.

(** [fetchData], run by the effect, on what [getDashboardData()] settles
    to; the response holds [None] when it has no [data] array.  The second
    component tells whether [console.error] was called. *)
Definition fetchData (resp : outcome (option (list Trend))) (st : State) : State * bool :=
  match resp with
  | Resolved (Some data) =>
    let sorted := arraySort compareFn data in
    ({| trendData := sorted;
        isLoading := false;
        selectedSkill :=
          match sorted with
          | t :: _ => Some t
          | [] => selectedSkill st
          end |}, false)
  | _ =>
    ({| trendData := trendData st; isLoading := false;
        selectedSkill := selectedSkill st |}, true)
  end.

(** [selectedSkill ? [...selectedSkill.history, ...selectedSkill.forecast] : []] *)
Definition chartData (st : State) : list Point :=
  match selectedSkill st with
  | Some t => history t ++ forecast t
  | None => []
  end.

(** The [onChange] handler of the select:
    [setSelectedSkill(trendData.find((t) => t.skill === e.target.value))]. *)
Definition onChange (value : jsstring) (st : State) : State :=
  {| trendData := trendData st;
     isLoading := isLoading st;
     selectedSkill := find (fun t => strictEq (skill t) value) (trendData st) |}.

(** [selectedSkill?.skill || ""] *)
Definition selectValue (st : State) : jsstring :=
  match selectedSkill st with
  | Some t => skill t
  | None => []
  end.

(** [t.skill.charAt(0).toUpperCase() + t.skill.slice(1)] *)
Definition optionLabel (U : CaseData) (t : Trend) : jsstring :=
  toUpperCase U (charAt0 (skill t)) ++ slice1 (skill t).

(** What the component renders: the loading card, or the select with its
    value and options (value, label) and, when a skill is selected, the
    chart with its title skill, its data and its two lines. *)
Record Chart : Type := {
  titleSkill : jsstring;
  data : list Point;
  historicalLine : list Point;
  forecastLine : list Point
}.

Inductive View : Type :=
| LoadingCard
| DashboardCard (value : jsstring) (options : list (jsstring * jsstring))
                (chart : option Chart).

Definition render (U : CaseData) (st : State) : View :=
  if isLoading st then LoadingCard
  else
    DashboardCard
      (selectValue st)
      (map (fun t => (skill t, optionLabel U t)) (trendData st))
      (match selectedSkill st with
       | Some t =>
         Some {| titleSkill := skill t; data := chartData st;
                 historicalLine := history t; forecastLine := forecast t |}
       | None => None
       end).

(** Sample dashboard data, as fetched. *)
Definition point (y : Z) (d : Q) : Point := {| year := y; demand_score := d |}.

Definition sampleTrends : list Trend :=
  [{| skill := js "rust"; history := [point 2023 (7 # 10); point 2024 (8 # 10)];
      forecast := [point 2025 (9 # 10)] |};
   {| skill := js "cobol"; history := []; forecast := [] |};
   {| skill := js "python"; history := [point 2024 (95 # 100)];
      forecast := [point 2025 (96 # 100)] |};
   {| skill := js "go"; history := [point 2023 (9 # 10); point 2024 (8 # 10)];
      forecast := [] |}].

End Dashboard.

(* ================================================================= *)
(** ** Sample worlds and requests *)

(** An excerpt of the Unicode tables, for running the handler on sample
    messages: Basic Latin, the Latin-1 supplement, the Greek capitals,
    I with dot above, the Kelvin sign and the Deseret capitals. *)
Definition excerptLower (c : Z) : list Z :=
  if (65 <=? c) && (c <=? 90) then [c + 32]
  else if (192 <=? c) && (c <=? 222) && negb (c =? 215) then [c + 32]
  else if c =? 304 then [105; 775]
  else if (913 <=? c) && (c <=? 939) && negb (c =? 930) then [c + 32]
  else if c =? 8490 then [107]
  else if (66560 <=? c) && (c <=? 66599) then [c + 40]
  else [c].

Definition excerptUpper (c : Z) : list Z :=
  if (97 <=? c) && (c <=? 122) then [c - 32]
  else if c =? 181 then [924]
  else if c =? 223 then [83; 83]
  else if (224 <=? c) && (c <=? 254) && negb (c =? 247) then [c - 32]
  else if c =? 255 then [376]
  else [c].

Definition excerptCased (c : Z) : bool :=
  isAsciiLetter c
  || (c =? 170) || (c =? 181) || (c =? 186)
  || ((192 <=? c) && (c <=? 255) && negb (c =? 215) && negb (c =? 247))
  || (c =? 304)
  || ((913 <=? c) && (c <=? 969) && negb (c =? 930))
  || (c =? 8490)
  || ((66560 <=? c) && (c <=? 66639)).

Definition excerptIgnorable (c : Z) : bool :=
  (c =? 39) || (c =? 46) || (c =? 58) || (c =? 94) || (c =? 96)
  || (c =? 168) || (c =? 173) || (c =? 175) || (c =? 180) || (c =? 183)
  || (c =? 184) || ((768 <=? c) && (c <=? 879)) || (c =? 65279).

Definition unicodeExcerpt : CaseData :=
  {| lowerOf := excerptLower; upperOf := excerptUpper;
     cased := excerptCased; caseIgnorable := excerptIgnorable |}.

Definition sampleSkills : list Skill :=
  [{| skillName := js "JavaScript"; proficiency := js "Advanced" |};
   {| skillName := js "Python"; proficiency := js "Beginner" |}].

Definition sampleDoc : option UserDoc := Some {| skills := Some sampleSkills |}.

Definition answer (t : option jsstring) : option GResult :=
  Some {| response := Some {| candidates := Some
    [{| r_content := Some {| r_parts := Some [{| r_text := t |}] |} |}] |} |}.

Definition noCandidates : option GResult :=
  Some {| response := Some {| candidates := Some [] |} |}.

(** A world whose collaborators all succeed; the random draw is 1/2. *)
Definition sampleWorld : World :=
  {| Math_random := 2 ^ 52;
     User_findById := fun _ => Resolved sampleDoc;
     generateContent := fun _ => Resolved (answer (Some (js " Recursion is self-reference. "))) |}.

Definition engineDownWorld : World :=
  {| Math_random := 0;
     User_findById := fun _ => Resolved sampleDoc;
     generateContent := fun _ => Rejected (Failure (js "503")) |}.

Definition emptyAnswerWorld : World :=
  {| Math_random := 0;
     User_findById := fun _ => Resolved None;
     generateContent := fun _ => Resolved noCandidates |}.

Definition storeDownWorld : World :=
  {| Math_random := 0;
     User_findById := fun _ => Rejected (Failure (js "ECONNREFUSED"));
     generateContent := fun _ => Resolved (answer (Some (js "unused"))) |}.

Definition sampleHistory : list Turn :=
  [{| role := js "user"; content := js "Hi" |};
   {| role := js "assistant"; content := js "Hello! How can I help?" |};
   {| role := js "user"; content := js "Hi" |}].

Definition requestOf (m : jsstring) (h : option (list Turn)) : Req :=
  {| body := Some {| message := Some m; history := h |}; user := Some (js "u1") |}.

Definition bodyOf (m : jsstring) (h : option (list Turn)) : Body :=
  {| message := Some m; history := h |}.

Definition thanksMessage : jsstring := js "Thanks, explain recursion".
Definition explainMessage : jsstring := js "explain recursion".
Definition teluguMessage : jsstring := js "రికర్షన్ gurinchi cheppu".
Definition brieflyMessage : jsstring :=
  js "Tell me briefly about machine learning, in one line".
Definition allDirectivesMessage : jsstring := js "తెలుగు short in one line".
Definition careerMessage : jsstring := js "Which role fits me?".

(** An engine result whose first candidate has [t] as the text of its
    first part, followed by the parts [ps] and the candidates [cs]. *)
Definition resultWith (t : option jsstring) (ps : list RPart) (cs : list Candidate)
  : option GResult :=
  Some {| response := Some {| candidates := Some
    ({| r_content := Some {| r_parts := Some ({| r_text := t |} :: ps) |} |} :: cs) |} |}.

(** A world like [sampleWorld] with another profile document. *)
Definition worldWithDoc (doc : option UserDoc) : World :=
  {| Math_random := Math_random sampleWorld;
     User_findById := fun _ => Resolved doc;
     generateContent := generateContent sampleWorld |}.

Definition kelvinMessage : jsstring := [79; 8490].
Definition dottedOkMessage : jsstring := [79; 75; 304].
Definition dottedGurinchMessage : jsstring := js "GURINCH" ++ [304].

(** Case analysis on the comparisons of a goal. *)
Ltac split_tests :=
  repeat match goal with
  | |- context [?a <=? ?b] => destruct (Z.leb_spec a b); simpl
  | |- context [?a <? ?b] => destruct (Z.ltb_spec a b); simpl
  | |- context [?a =? ?b] => destruct (Z.eqb_spec a b); simpl
  end.

(* ================================================================= *)
(** ** The handler, constant by constant *)

Section Handler.

(** The Unicode data of the engine the handler runs on. *)
Variable U : CaseData.

(** [message.toLowerCase().trim()] *)
Definition normalize (message : jsstring) : jsstring := trim (toLowerCase U message).

Definition appreciationTerms : list jsstring :=
  [js "thanks"; js "thank you"; js "good work"; js "nice"; js "awesome";
   js "great"; js "cool"; js "well done"; js "good bot"; js "helpful";
   js "ok"; js "okay"; js "good"].

Definition appreciationRegex : regex := Seq WordB (Seq (alts appreciationTerms) WordB).

Definition quickReplies : list jsstring :=
  [js "👍 Glad you found it useful!";
   js "😊 Thank you! I’m always here to guide you on your career journey.";
   js "🙌 Happy to help! Let me know what you’d like to explore next.";
   js "✨ Great! Ready whenever you want to continue."].

(** [Math.floor(Math.random() * quickReplies.length)]; the product with 4
    is exact on doubles. *)
Definition randomIndex (w : World) : Z :=
  (Math_random w * Z.of_nat (List.length quickReplies)) / 2 ^ 53.

Definition wantsShort (lowerMsg : jsstring) : bool :=
  test (Seq WordB (Seq (lit (js "short")) (Seq (Opt (alts [js "en"; js "ly"])) WordB)))
       lowerMsg
  || includes lowerMsg (js "short").

Definition oneLineTerms : list jsstring := [js "one line"; js "1 line"; js "single line"].

Definition wantsOneLine (lowerMsg : jsstring) : bool :=
  test (Seq WordB (Seq (alts oneLineTerms) WordB)) lowerMsg
  || includes lowerMsg (js "in one line").

Definition isTelugu (message : jsstring) : bool := test (Range 3072 3199) message.

Definition transliteratedTerms : list jsstring := [js "gurinchi"; js "cheppu"; js "chepu"].

Definition definitionTerms : list jsstring :=
  [js "what is"; js "explain"; js "tell me about"; js "definition of"].

Definition isDefinitionRequest (lowerMsg : jsstring) : bool :=
  test (alts transliteratedTerms) lowerMsg
  || test (Seq WordB (Seq (alts definitionTerms) WordB)) lowerMsg.

Definition renderSkill (s : Skill) : jsstring :=
  skillName s ++ js " (" ++ proficiency s ++ js ")".

(** [user?.skills?.length ? user.skills.map(..).join(", ") : "None"] *)
Definition userSkills (u : option UserDoc) : jsstring :=
  match u with
  | Some {| skills := Some (s :: l) |} => join (js ", ") (map renderSkill (s :: l))
  | _ => js "None"
  end.

Definition systemContext (telugu definition : bool) (skillsText : jsstring) : jsstring :=
  if telugu && definition then
    js "The user is asking for a definition/explanation in Telugu."
  else if definition then
    js "The user is asking for a definition/explanation in English."
  else
    js "The user is asking for career advice. They have the following skills: "
      ++ skillsText ++ js ".".

(** [history || []] *)
Definition orEmpty {A : Type} (h : option (list A)) : list A :=
  match h with
  | Some l => l
  | None => []
  end.

Definition toContent (msg : Turn) : Content :=
  {| c_role := role msg; parts := [{| text := content msg |}] |}.

Definition chatHistory (h : option (list Turn)) : list Content :=
  map toContent (orEmpty h).

Definition newline : jsstring := [10].

Definition briefLine : jsstring :=
  newline ++ js "Assistant: Please answer briefly in 2-3 sentences.".
Definition oneSentenceLine : jsstring :=
  newline ++ js "Assistant: Please answer in exactly one sentence.".
Definition teluguLine : jsstring :=
  newline ++ js "Assistant: Respond in Telugu language, focusing on career guidance.".

Definition finalMessage (ctx message : jsstring) (short oneLine telugu definition : bool)
  : jsstring :=
  let m0 := ctx ++ newline ++ js "User: " ++ message in
  let m1 := if short then m0 ++ briefLine else m0 in
  let m2 := if oneLine then m1 ++ oneSentenceLine else m1 in
  if telugu && negb definition then m2 ++ teluguLine else m2.

(** [result?.response?.candidates?.[0]?.content?.parts?.[0]?.text] *)
Definition opt_bind {A B : Type} (o : option A) (f : A -> option B) : option B :=
  match o with
  | Some a => f a
  | None => None
  end.

Definition candidateText (result : option GResult) : option jsstring :=
  opt_bind result (fun r =>
  opt_bind (response r) (fun rs =>
  opt_bind (candidates rs) (fun cs =>
  opt_bind (index cs 0) (fun c =>
  opt_bind (r_content c) (fun ct =>
  opt_bind (r_parts ct) (fun ps =>
  opt_bind (index ps 0) (fun p => r_text p))))))).

Definition fallbackText : jsstring := js "⚠️ Sorry, I couldn’t generate a response.".

Definition apologyText : jsstring :=
  js "⚠️ Sorry, I'm having trouble connecting to my brain right now. Please try again later.".

Definition assistant : jsstring := js "assistant".

Definition userTurn (finalMsg : jsstring) : Content :=
  {| c_role := js "user"; parts := [{| text := finalMsg |}] |}.

(** The prompt of a request that is not short-circuited, as the handler
    assembles it from the message and the profile document. *)
Definition promptFor (msg : jsstring) (doc : option UserDoc) : jsstring :=
  let lowerMsg := normalize msg in
  let telugu := isTelugu msg in
  let definition := isDefinitionRequest lowerMsg in
  finalMessage (systemContext telugu definition (userSkills doc)) msg
               (wantsShort lowerMsg) (wantsOneLine lowerMsg) telugu definition.

(** The body of the [try] block. *)
Definition tryBlock (w : World) (rq : Req) (msg : option jsstring)
           (hist : option (list Turn)) : M Res :=
  m <- deref msg ;;
  let lowerMsg := normalize m in
  if test appreciationRegex lowerMsg then
    emit CallRandom ;;;
    let reply := index quickReplies (randomIndex w) in
    ret {| status := 200; r_role := assistant; r_body_content := reply |}
  else
    let short := wantsShort lowerMsg in
    let oneLine := wantsOneLine lowerMsg in
    let telugu := isTelugu m in
    let definition := isDefinitionRequest lowerMsg in
    id <- deref (user rq) ;;
    doc <- await (CallFindById id) (User_findById w id) ;;
    let skillsText := userSkills doc in
    let ctx := systemContext telugu definition skillsText in
    let hist' := chatHistory hist in
    let finalMsg := finalMessage ctx m short oneLine telugu definition in
    let contents := hist' ++ [userTurn finalMsg] in
    result <- await (CallGenerateContent contents) (generateContent w contents) ;;
    let reply := or_else (candidateText result) fallbackText in
    ret {| status := 200; r_role := assistant; r_body_content := Some (trim reply) |}.

(** The [catch] block. *)
Definition apologyReply : Res :=
  {| status := 500; r_role := assistant; r_body_content := Some apologyText |}.

Definition catchBlock (e : exn) : M Res :=
  emit CallConsoleError ;;;
  ret apologyReply.

Definition getChatResponse (w : World) (rq : Req) : M Res :=
  b <- deref (body rq) ;;
  try_catch (tryBlock w rq (message b) (history b)) catchBlock.

(** Running the handler on a request: what it answers, or the exception
    that escapes it, and the calls it made. *)
Definition run (w : World) (rq : Req) : (exn + Res) * list event :=
  getChatResponse w rq [].

(** How many times the completion engine and the profile store were called. *)
Definition isEngineCall (ev : event) : bool :=
  match ev with CallGenerateContent _ => true | _ => false end.
Definition isProfileCall (ev : event) : bool :=
  match ev with CallFindById _ => true | _ => false end.
Definition engineCalls (t : list event) : nat := List.length (filter isEngineCall t).
Definition profileCalls (t : list event) : nat := List.length (filter isProfileCall t).

(** The conversation handed to the completion engine, and the reply built
    from what it resolves to. *)
Definition conversationFor (hist : option (list Turn)) (msg : jsstring)
           (doc : option UserDoc) : list Content :=
  chatHistory hist ++ [userTurn (promptFor msg doc)].

Definition engineReply (result : option GResult) : Res :=
  {| status := 200; r_role := assistant;
     r_body_content := Some (trim (or_else (candidateText result) fallbackText)) |}.

Definition okReply (reply : jsstring) : Res :=
  {| status := 200; r_role := assistant; r_body_content := Some reply |}.

(** A request that reaches the profile lookup: it has a body, a string
    message the appreciation test rejects, and an authenticated user. *)
Definition reachesLookup (rq : Req) (b : Body) (m id : jsstring) : Prop :=
  body rq = Some b /\ message b = Some m /\ user rq = Some id
  /\ test appreciationRegex (normalize m) = false.

(** The intent the flow of the handler gives a normalized message: the
    appreciation test returns early, then the definition test picks the
    context. *)
Inductive Intent : Type := Appreciation | DefinitionRequest | CareerAdvice.

Definition intentOf (lowerMsg : jsstring) : Intent :=
  if test appreciationRegex lowerMsg then Appreciation
  else if isDefinitionRequest lowerMsg then DefinitionRequest
  else CareerAdvice.

(** Occurrences of a term in a text, for stating what the patterns accept:
    anywhere, and between two word boundaries. *)
Definition occursIn (term s : jsstring) : Prop :=
  exists pre post, s = pre ++ term ++ post.

Definition boundaryBetween (l r : jsstring) : bool := xorb (wordAt (rev l)) (wordAt r).

Definition wordMatch (term s : jsstring) : Prop :=
  exists pre post,
    s = pre ++ term ++ post
    /\ boundaryBetween pre (term ++ post) = true
    /\ boundaryBetween (pre ++ term) post = true.

Definition headWhite (s : jsstring) : bool :=
  match s with
  | [] => false
  | c :: _ => isWhiteSpace c
  end.

(* ================================================================= *)
(** ** Strings: literals and trimming *)

Example js_thumbs_up : js "👍 ok" = [55357; 56397; 32; 111; 107].
Proof. reflexivity. Qed.

Example js_warning : js "⚠️ I’m" = [9888; 65039; 32; 73; 8217; 109].
Proof. reflexivity. Qed.

Lemma trimStart_suffix (s : jsstring) : exists p, s = p ++ trimStart s.
Proof.
  induction s as [|c r [p Hp]]; simpl.
  - now exists [].
  - destruct (isWhiteSpace c).
    + exists (c :: p). simpl. now rewrite <- Hp.
    + now exists [].
Qed.

Lemma trimStart_head (s : jsstring) : headWhite (trimStart s) = false.
Proof.
  induction s as [|c r IH]; simpl; trivial.
  destruct (isWhiteSpace c) eqn:E; simpl; auto.
Qed.

Lemma trimStart_fixed (s : jsstring) : headWhite s = false -> trimStart s = s.
Proof.
  destruct s as [|c r]; simpl; trivial. now intros ->.
Qed.

Lemma trimStart_rev_head (a : jsstring) :
  headWhite a = false -> headWhite (rev (trimStart (rev a))) = false.
Proof.
  intros Ha. destruct (trimStart_suffix (rev a)) as [p Hp].
  destruct (trimStart (rev a)) as [|c b] eqn:E; trivial.
  assert (Hrev : a = rev (c :: b) ++ rev p).
  { rewrite <- rev_app_distr, <- Hp. now rewrite rev_involutive. }
  destruct (rev (c :: b)) as [|d q] eqn:E2.
  - trivial.
  - rewrite Hrev in Ha. exact Ha.
Qed.

Lemma trim_ends (s : jsstring) :
  headWhite (trim s) = false /\ headWhite (rev (trim s)) = false.
Proof.
  unfold trim, trimEnd. split.
  - apply trimStart_rev_head, trimStart_head.
  - rewrite rev_involutive. apply trimStart_head.
Qed.

Lemma trim_fixed (s : jsstring) :
  headWhite s = false -> headWhite (rev s) = false -> trim s = s.
Proof.
  intros H1 H2. unfold trim, trimEnd.
  rewrite (trimStart_fixed s H1), (trimStart_fixed (rev s) H2).
  apply rev_involutive.
Qed.

Lemma trim_idempotent (s : jsstring) : trim (trim s) = trim s.
Proof. destruct (trim_ends s). now apply trim_fixed. Qed.

Lemma trimStart_In (c : Z) (s : jsstring) : In c (trimStart s) -> In c s.
Proof.
  destruct (trimStart_suffix s) as [p Hp]. intros H.
  rewrite Hp. apply in_or_app. now right.
Qed.

Lemma trim_In (c : Z) (s : jsstring) : In c (trim s) -> In c s.
Proof.
  unfold trim, trimEnd. intros H.
  apply trimStart_In. apply in_rev. apply trimStart_In. now apply in_rev in H.
Qed.

(* ================================================================= *)
(** ** Code points and code units *)

Lemma codePoints_eq (s : jsstring) :
  codePoints s =
  match s with
  | [] => []
  | h :: r =>
    match r with
    | l :: r' =>
      if isHighSurrogate h && isLowSurrogate l
      then (65536 + (h - 55296) * 1024 + (l - 56320)) :: codePoints r'
      else h :: codePoints r
    | [] => [h]
    end
  end.
Proof. destruct s; reflexivity. Qed.

Lemma codePoints_single (c : Z) (r : jsstring) :
  isHighSurrogate c && headLow r = false -> codePoints (c :: r) = c :: codePoints r.
Proof.
  intros H. rewrite (codePoints_eq (c :: r)).
  destruct r as [|l r]; [reflexivity |]. cbn [headLow] in H. now rewrite H.
Qed.

Lemma pairs_induction (P : list Z -> Prop) :
  P [] -> (forall a, P [a]) ->
  (forall a b r, P r -> P (b :: r) -> P (a :: b :: r)) ->
  forall l, P l.
Proof.
  intros H0 H1 H2 l.
  assert (H : P l /\ forall a, P (a :: l)); [| exact (proj1 H)].
  induction l as [|b r [IHr IHbr]].
  - split; [exact H0 | exact H1].
  - split; [apply IHbr |]. intros a. apply H2; [exact IHr | apply IHbr].
Qed.

Lemma surrogate_bounds (c : Z) :
  (isHighSurrogate c = true <-> 55296 <= c <= 56319)
  /\ (isLowSurrogate c = true <-> 56320 <= c <= 57343).
Proof.
  unfold isHighSurrogate, isLowSurrogate.
  rewrite !andb_true_iff, !Z.leb_le. tauto.
Qed.

Lemma not_surrogate_outside (c : Z) :
  c < 55296 \/ 57343 < c ->
  isHighSurrogate c = false /\ isLowSurrogate c = false.
Proof.
  intros H. destruct (surrogate_bounds c) as [Hh Hl].
  split.
  - destruct (isHighSurrogate c); trivial. destruct (proj1 Hh eq_refl). lia.
  - destruct (isLowSurrogate c); trivial. destruct (proj1 Hl eq_refl). lia.
Qed.

Lemma high_is_not_low (c : Z) : isHighSurrogate c = true -> isLowSurrogate c = false.
Proof.
  intros H. apply surrogate_bounds in H.
  destruct (isLowSurrogate c) eqn:E; trivial. apply surrogate_bounds in E. lia.
Qed.

Lemma pair_is_supplementary (h l : Z) :
  isHighSurrogate h = true -> isLowSurrogate l = true ->
  65536 <= 65536 + (h - 55296) * 1024 + (l - 56320) < 1114112.
Proof.
  intros Hh Hl. apply surrogate_bounds in Hh. apply surrogate_bounds in Hl. lia.
Qed.

Lemma headLow_codePoints (s : jsstring) :
  headLow (codePoints s) = true -> headLow s = true.
Proof.
  destruct s as [|h [|l r]]; trivial.
  rewrite (codePoints_eq (h :: l :: r)).
  destruct (isHighSurrogate h && isLowSurrogate l) eqn:E; trivial.
  apply andb_true_iff in E as [Hh Hl]. cbn [headLow]. intros H.
  pose proof (pair_is_supplementary h l Hh Hl) as Hp.
  destruct (not_surrogate_outside (65536 + (h - 55296) * 1024 + (l - 56320))) as [_ Hn];
    [lia | congruence].
Qed.

Lemma noPair_codePoints (s : jsstring) : noPair (codePoints s) = true.
Proof.
  induction s as [| a | a b r IHr IHbr] using pairs_induction; trivial.
  - cbn. now rewrite andb_false_r.
  - rewrite (codePoints_eq (a :: b :: r)).
    destruct (isHighSurrogate a && isLowSurrogate b) eqn:E.
    + apply andb_true_iff in E as [Ha Hb]. cbn [noPair]. rewrite IHr.
      pose proof (pair_is_supplementary a b Ha Hb) as Hp.
      destruct (not_surrogate_outside (65536 + (a - 55296) * 1024 + (b - 56320))) as [Hn _];
        [lia |]. now rewrite Hn.
    + cbn [noPair]. rewrite IHbr, andb_true_r.
      destruct (isHighSurrogate a) eqn:Ha; trivial. cbn [andb negb] in *.
      destruct (headLow (codePoints (b :: r))) eqn:Hl; trivial.
      apply headLow_codePoints in Hl. cbn [headLow] in Hl. congruence.
Qed.

Lemma not_blank_above (x : Z) : 12289 <= x -> x <> 65279 -> isWhiteSpace x = false.
Proof.
  intros H1 H2. unfold isWhiteSpace.
  repeat match goal with
  | |- context [x =? ?b] =>
    replace (x =? b) with false by (symmetry; apply Z.eqb_neq; lia)
  end.
  replace (x <=? 13) with false by (symmetry; apply Z.leb_gt; lia).
  replace (x <=? 8202) with false by (symmetry; apply Z.leb_gt; lia).
  rewrite !andb_false_r. reflexivity.
Qed.

Lemma blank_is_small (c : Z) : isWhiteSpace c = true -> 0 <= c < 65536.
Proof.
  intros H. destruct (Z_lt_le_dec c 12289) as [Hs | Hb].
  - split; [| lia]. destruct (Z_lt_le_dec c 0) as [Hn | Hp]; trivial.
    exfalso. revert H. unfold isWhiteSpace.
    repeat match goal with
    | |- context [c =? ?b] =>
      replace (c =? b) with false by (symmetry; apply Z.eqb_neq; lia)
    end.
    replace (9 <=? c) with false by (symmetry; apply Z.leb_gt; lia).
    replace (8192 <=? c) with false by (symmetry; apply Z.leb_gt; lia).
    discriminate.
  - destruct (Z.eq_dec c 65279) as [-> | Hne]; [lia |].
    rewrite (not_blank_above c Hb Hne) in H. discriminate.
Qed.

(** The two shapes of [codeUnitsOf]. *)
Lemma codeUnitsOf_cases (c : Z) :
  (exists h l,
      codeUnitsOf c = [h; l]
      /\ isHighSurrogate h = true /\ isLowSurrogate l = true
      /\ 65536 + (h - 55296) * 1024 + (l - 56320) = c
      /\ 65536 <= c)
  \/ (codeUnitsOf c = [c] /\ (c < 65536 \/ 1114112 <= c)).
Proof.
  unfold codeUnitsOf.
  destruct (Z.leb_spec 65536 c) as [H1 | H1]; destruct (Z.ltb_spec c 1114112) as [H2 | H2];
    cbn [andb]; try (right; split; [reflexivity | lia]).
  left. eexists. eexists. split; [reflexivity |].
  pose proof (Z.div_mod (c - 65536) 1024 ltac:(lia)) as Hd.
  pose proof (Z.mod_pos_bound (c - 65536) 1024 ltac:(lia)) as Hm.
  assert (Hq : 0 <= (c - 65536) / 1024 < 1024).
  { split; [apply Z.div_pos; lia | apply Z.div_lt_upper_bound; lia]. }
  repeat split; try (apply surrogate_bounds; lia); lia.
Qed.

Lemma headLow_codeUnits (l : list Z) : headLow (codeUnits l) = headLow l.
Proof.
  destruct l as [|d l]; trivial. cbn [codeUnits flat_map].
  destruct (codeUnitsOf_cases d) as [(h & lo & -> & Hh & _ & _ & Hd) | [-> _]]; trivial.
  cbn [app headLow]. rewrite (high_is_not_low h Hh).
  symmetry. apply not_surrogate_outside. lia.
Qed.

(** Reading back the code points of written code points. *)
Lemma codePoints_codeUnits (l : list Z) :
  noPair l = true -> codePoints (codeUnits l) = l.
Proof.
  induction l as [|c l IH]; trivial.
  cbn [noPair]. intros H. apply andb_true_iff in H as [Hc Hl].
  cbn [codeUnits flat_map]. fold (codeUnits l).
  destruct (codeUnitsOf_cases c) as [(h & lo & -> & Hh & Hlo & Hm & _) | [-> _]].
  - cbn [app]. rewrite (codePoints_eq (h :: lo :: codeUnits l)), Hh, Hlo. cbn [andb].
    now rewrite Hm, IH.
  - cbn [app]. rewrite codePoints_single.
    + now rewrite IH.
    + rewrite headLow_codeUnits. now apply negb_true_iff.
Qed.

Lemma noPair_app_l (l1 l2 : list Z) : noPair (l1 ++ l2) = true -> noPair l1 = true.
Proof.
  induction l1 as [|a l1 IH]; trivial. cbn [app noPair].
  intros H. apply andb_true_iff in H as [Ha Hr]. rewrite (IH Hr), andb_true_r.
  destruct l1; [now rewrite andb_false_r | exact Ha].
Qed.

Lemma noPair_app_r (l1 l2 : list Z) : noPair (l1 ++ l2) = true -> noPair l2 = true.
Proof.
  induction l1 as [|a l1 IH]; trivial. cbn [app noPair].
  intros H. apply andb_true_iff in H as [_ Hr]. exact (IH Hr).
Qed.

Lemma trimEnd_prefix (s : jsstring) : exists q, s = trimEnd s ++ q.
Proof.
  unfold trimEnd. destruct (trimStart_suffix (rev s)) as [p Hp].
  exists (rev p). rewrite <- rev_app_distr, <- Hp. now rewrite rev_involutive.
Qed.

Lemma noPair_trim (l : list Z) : noPair l = true -> noPair (trim l) = true.
Proof.
  intros H. unfold trim.
  destruct (trimStart_suffix l) as [p Hp]. rewrite Hp in H. apply noPair_app_r in H.
  destruct (trimEnd_prefix (trimStart l)) as [q Hq]. rewrite Hq in H.
  exact (noPair_app_l _ _ H).
Qed.

Lemma trimEnd_snoc (s : jsstring) (c : Z) :
  trimEnd (s ++ [c]) = if isWhiteSpace c then trimEnd s else s ++ [c].
Proof.
  unfold trimEnd. rewrite rev_app_distr. cbn [rev app trimStart].
  destruct (isWhiteSpace c); trivial.
  cbn [rev]. now rewrite rev_involutive.
Qed.

Lemma trimStart_codeUnits (l : list Z) : trimStart (codeUnits l) = codeUnits (trimStart l).
Proof.
  induction l as [|c l IH]; trivial. cbn [codeUnits flat_map trimStart]. fold (codeUnits l).
  destruct (codeUnitsOf_cases c) as [(h & lo & E & Hh & _ & _ & Hc) | [E _]].
  - apply surrogate_bounds in Hh.
    rewrite (not_blank_above c) by lia. cbn [codeUnits flat_map]. rewrite E.
    cbn [app trimStart]. now rewrite (not_blank_above h) by lia.
  - rewrite E. cbn [app trimStart]. destruct (isWhiteSpace c); trivial.
    cbn [codeUnits flat_map]. now rewrite E.
Qed.

Lemma codeUnits_app (l1 l2 : list Z) : codeUnits (l1 ++ l2) = codeUnits l1 ++ codeUnits l2.
Proof. apply flat_map_app. Qed.

Lemma trimEnd_codeUnits (l : list Z) : trimEnd (codeUnits l) = codeUnits (trimEnd l).
Proof.
  induction l as [|c l IH] using rev_ind; trivial.
  rewrite codeUnits_app, trimEnd_snoc. cbn [codeUnits flat_map]. rewrite app_nil_r.
  destruct (codeUnitsOf_cases c) as [(h & lo & E & _ & Hlo & _ & Hc) | [E _]].
  - apply surrogate_bounds in Hlo.
    rewrite (not_blank_above c) by lia. rewrite codeUnits_app. cbn [codeUnits flat_map].
    rewrite app_nil_r, E.
    change [h; lo] with ([h] ++ [lo]). rewrite app_assoc, trimEnd_snoc.
    now rewrite (not_blank_above lo) by lia.
  - rewrite E, trimEnd_snoc. destruct (isWhiteSpace c); trivial.
    rewrite codeUnits_app. cbn [codeUnits flat_map]. now rewrite app_nil_r, E.
Qed.

Lemma trim_codeUnits (l : list Z) : trim (codeUnits l) = codeUnits (trim l).
Proof. unfold trim. now rewrite trimStart_codeUnits, trimEnd_codeUnits. Qed.

(* ================================================================= *)
(** ** Lower-casing *)

Lemma lowerCodePoints_kept (b l : list Z) :
  Forall (fun d => lowerOf U d = [d] /\ d <> 931) l -> lowerCodePoints U b l = l.
Proof.
  revert b. induction l as [|c l IH]; intros b H; trivial.
  inversion H as [|? ? [Hc Hs] Hl]; subst. cbn [lowerCodePoints].
  replace (c =? 931) with false by (symmetry; now apply Z.eqb_neq).
  cbn [andb]. rewrite Hc. cbn [app]. now rewrite IH.
Qed.

(** Lower-casing leaves a string of lower-case code points as it is. *)
Lemma toLowerCase_kept (l : list Z) :
  Forall (fun d => lowerOf U d = [d] /\ d <> 931) l -> noPair l = true ->
  toLowerCase U (codeUnits l) = codeUnits l.
Proof.
  intros Hf Hp. unfold toLowerCase.
  now rewrite (codePoints_codeUnits l Hp), (lowerCodePoints_kept [] l Hf).
Qed.

Lemma not_sigma_when_fixed (d : Z) :
  lowerStable U -> lowerOf U d = [d] -> d <> 931.
Proof.
  intros HU Hd ->. rewrite (lower_sigma U HU) in Hd. discriminate.
Qed.

Lemma forallb_false (f : Z -> bool) (l : list Z) :
  forallb f l = false -> exists x, In x l /\ f x = false.
Proof.
  induction l as [|a l IH]; [discriminate |]. cbn [forallb].
  destruct (f a) eqn:E; cbn [andb]; intros H.
  - destruct (IH H) as [x [Hx Hf]]. exists x. split; [now right | exact Hf].
  - exists a. split; [now left | exact E].
Qed.

(** What one code point is replaced by. *)
Lemma lower_block (b rest : list Z) (c : Z) :
  lowerStable U ->
  let block := if (c =? 931) && finalSigma U b rest then [962] else lowerOf U c in
  block <> []
  /\ Forall (fun d => lowerOf U d = [d] /\ d <> 931) block
  /\ (block = [c]
      \/ Forall (fun d => isHighSurrogate d || isLowSurrogate d = false) block).
Proof.
  intros HU block. subst block.
  destruct ((c =? 931) && finalSigma U b rest).
  - split; [discriminate |]. split.
    + constructor; [| constructor]. split; [exact (lower_final_sigma U HU) | lia].
    + right. constructor; [reflexivity | constructor].
  - split; [apply (lower_nonempty U HU) |]. split.
    + apply Forall_forall. intros d Hd.
      pose proof (lower_fixed U HU c d Hd) as Hfix.
      split; [exact Hfix | exact (not_sigma_when_fixed d HU Hfix)].
    + destruct (forallb (fun d => negb (isHighSurrogate d || isLowSurrogate d))
                  (lowerOf U c)) eqn:E.
      * right. apply Forall_forall. intros d Hd.
        rewrite forallb_forall in E. specialize (E d Hd). now apply negb_true_iff.
      * left. apply forallb_false in E as [d [Hd Hs]].
        apply (lower_surrogate U HU c d Hd). now apply negb_false_iff.
Qed.

Lemma lowerCodePoints_all_kept (b l : list Z) :
  lowerStable U ->
  Forall (fun d => lowerOf U d = [d] /\ d <> 931) (lowerCodePoints U b l).
Proof.
  intros HU. revert b. induction l as [|c l IH]; intros b; [constructor |].
  cbn [lowerCodePoints]. apply Forall_app. split; [| apply IH].
  exact (proj1 (proj2 (lower_block b l c HU))).
Qed.

Lemma headLow_lowerCodePoints (b l : list Z) :
  lowerStable U -> headLow (lowerCodePoints U b l) = true -> headLow l = true.
Proof.
  intros HU. destruct l as [|c l]; trivial. cbn [lowerCodePoints headLow].
  destruct (lower_block b l c HU) as (Hne & _ & [E | Hplain]).
  - rewrite E. trivial.
  - destruct (if (c =? 931) && finalSigma U b l then [962] else lowerOf U c)
      as [|d block] eqn:Eb; [congruence |].
    cbn [app headLow]. inversion Hplain as [|? ? Hd _]; subst.
    apply orb_false_iff in Hd as [_ Hd]. congruence.
Qed.

Lemma noPair_plain_app (block r : list Z) :
  Forall (fun d => isHighSurrogate d || isLowSurrogate d = false) block ->
  noPair r = true -> noPair (block ++ r) = true.
Proof.
  induction 1 as [|d block Hd _ IH]; trivial. intros Hr.
  cbn [app noPair]. rewrite (IH Hr).
  apply orb_false_iff in Hd as [-> _]. reflexivity.
Qed.

Lemma noPair_lowerCodePoints (b l : list Z) :
  lowerStable U -> noPair l = true -> noPair (lowerCodePoints U b l) = true.
Proof.
  intros HU. revert b. induction l as [|c l IH]; intros b H; trivial.
  cbn [noPair] in H. apply andb_true_iff in H as [Hc Hl].
  cbn [lowerCodePoints].
  destruct (lower_block b l c HU) as (_ & _ & [E | Hplain]).
  - rewrite E. cbn [app noPair]. rewrite (IH _ Hl), andb_true_r.
    destruct (isHighSurrogate c) eqn:Hh; trivial. cbn [andb negb] in *.
    destruct (headLow (lowerCodePoints U (c :: b) l)) eqn:Hlow; trivial.
    apply (headLow_lowerCodePoints _ _ HU) in Hlow. rewrite Hlow in Hc. discriminate.
  - apply noPair_plain_app; [exact Hplain | exact (IH _ Hl)].
Qed.

(** Normalization written on code points. *)
Lemma normalize_codeUnits (s : jsstring) :
  normalize s = codeUnits (trim (lowerCodePoints U [] (codePoints s))).
Proof. unfold normalize, toLowerCase. apply trim_codeUnits. Qed.

Lemma normalize_idempotent (s : jsstring) :
  lowerStable U -> normalize (normalize s) = normalize s.
Proof.
  intros HU. rewrite (normalize_codeUnits s).
  set (out := lowerCodePoints U [] (codePoints s)).
  unfold normalize. rewrite toLowerCase_kept.
  - rewrite trim_codeUnits. now rewrite trim_idempotent.
  - apply Forall_forall. intros d Hd. apply trim_In in Hd.
    pose proof (lowerCodePoints_all_kept [] (codePoints s) HU) as Hall.
    rewrite Forall_forall in Hall. now apply Hall.
  - apply noPair_trim. apply noPair_lowerCodePoints; trivial. apply noPair_codePoints.
Qed.

Lemma toLowerCase_twice (s : jsstring) :
  lowerStable U -> toLowerCase U (toLowerCase U s) = toLowerCase U s.
Proof.
  intros HU. unfold toLowerCase at 2 3. apply toLowerCase_kept.
  - now apply lowerCodePoints_all_kept.
  - apply noPair_lowerCodePoints; trivial. apply noPair_codePoints.
Qed.

(** On a Basic Latin string lower-casing maps A-Z to a-z and keeps the
    other units. *)
Lemma basic_latin_units (s : jsstring) :
  isBasicLatin s = true -> Forall (fun c => 0 <= c < 128) s.
Proof.
  unfold isBasicLatin. rewrite forallb_forall, Forall_forall.
  intros H c Hc. specialize (H c Hc).
  apply andb_true_iff in H as [H1 H2]. apply Z.leb_le in H1. apply Z.ltb_lt in H2. lia.
Qed.

Lemma codePoints_plain (s : jsstring) :
  Forall (fun c => isHighSurrogate c = false) s -> codePoints s = s.
Proof.
  induction 1 as [|c s Hc _ IH]; trivial.
  rewrite codePoints_single; [now rewrite IH | now rewrite Hc].
Qed.

Lemma codeUnits_plain (l : list Z) :
  Forall (fun c => c < 65536) l -> codeUnits l = l.
Proof.
  induction 1 as [|c l Hc _ IH]; trivial. cbn [codeUnits flat_map]. fold (codeUnits l).
  destruct (codeUnitsOf_cases c) as [(h & lo & _ & _ & _ & _ & Hb) | [-> _]]; [lia |].
  cbn [app]. now rewrite IH.
Qed.

Lemma toLowerCase_basic_latin (s : jsstring) :
  basicLatin U -> isBasicLatin s = true -> toLowerCase U s = map lowerAscii s.
Proof.
  intros HU Hs. apply basic_latin_units in Hs. unfold toLowerCase.
  rewrite codePoints_plain.
  2:{ eapply Forall_impl; [| exact Hs]. intros c Hc. cbn beta in *.
      apply not_surrogate_outside. lia. }
  assert (Hl : forall b, lowerCodePoints U b s = map lowerAscii s).
  { induction Hs as [|c s Hc _ IH]; intros b; trivial. cbn [lowerCodePoints map].
    replace (c =? 931) with false by (symmetry; apply Z.eqb_neq; lia).
    cbn [andb]. rewrite (ascii_lower U HU c Hc). cbn [app]. now rewrite IH. }
  rewrite Hl. apply codeUnits_plain. apply Forall_forall. intros d Hd.
  apply in_map_iff in Hd as [c [<- Hc]]. rewrite Forall_forall in Hs.
  specialize (Hs c Hc). unfold lowerAscii.
  destruct ((65 <=? c) && (c <=? 90)); lia.
Qed.

Lemma normalize_basic_latin (s : jsstring) :
  basicLatin U -> isBasicLatin s = true -> normalize s = trim (map lowerAscii s).
Proof. intros HU Hs. unfold normalize. now rewrite toLowerCase_basic_latin. Qed.
(* ================================================================= *)
(** ** What the patterns accept *)

Lemma startsWith_spec (p s : jsstring) :
  startsWith s p = true <-> exists post, s = p ++ post.
Proof.
  revert s. induction p as [|a p IH]; intros s; simpl.
  - split; trivial. intros _. now exists s.
  - destruct s as [|c s].
    + split; [discriminate | intros [post H]; discriminate].
    + rewrite andb_true_iff, Z.eqb_eq, IH. split.
      * intros [-> [post ->]]. now exists post.
      * intros [post H]. injection H as -> ->. split; trivial. now exists post.
Qed.

Lemma includes_spec (p s : jsstring) : includes s p = true <-> occursIn p s.
Proof.
  unfold occursIn. induction s as [|c s IH]; simpl.
  - rewrite orb_false_r, startsWith_spec. split.
    + intros [post H]. now exists [], post.
    + intros [pre [post H]]. destruct pre; [now exists post | discriminate].
  - rewrite orb_true_iff, startsWith_spec, IH. split.
    + intros [[post H] | [pre [post H]]].
      * now exists [], post.
      * exists (c :: pre), post. simpl. now rewrite H.
    + intros [[|d pre] [post H]].
      * left. now exists post.
      * right. injection H as -> ->. now exists pre, post.
Qed.

Lemma matcher_lit (w : jsstring) (x : mstate) (k : mstate -> bool) :
  matcher (lit w) x k = true <->
  exists rest, snd x = w ++ rest /\ k (rev w ++ fst x, rest) = true.
Proof.
  revert x. induction w as [|c w IH]; intros [before after]; simpl.
  - split.
    + intros H. now exists after.
    + now intros [rest [<- H]].
  - destruct after as [|d rest].
    + split; [discriminate | intros [r [H _]]; discriminate].
    + destruct (Z.eqb_spec d c) as [-> | Hne].
      * rewrite IH. simpl. rewrite <- app_assoc. simpl. split.
        -- intros [r [-> H]]. now exists r.
        -- intros [r [H1 H2]]. injection H1 as ->. now exists r.
      * split; [discriminate | intros [r [H _]]; congruence].
Qed.

Lemma matcher_alts (l : list jsstring) (x : mstate) (k : mstate -> bool) :
  l <> [] ->
  (matcher (alts l) x k = true <-> exists w, In w l /\ matcher (lit w) x k = true).
Proof.
  induction l as [|w [|w' r] IH]; intros Hl.
  - contradiction.
  - simpl. split.
    + intros H. exists w. auto.
    + now intros [v [[<- | []] H]].
  - change (alts (w :: w' :: r)) with (Alt (lit w) (alts (w' :: r))).
    cbn [matcher]. rewrite orb_true_iff, IH by discriminate. split.
    + intros [H | [v [Hv H]]].
      * exists w. split; [now left | trivial].
      * exists v. split; [now right | trivial].
    + intros [v [[<- | Hv] H]]; [now left | right; now exists v].
Qed.

Lemma scan_spec (r : regex) (before after : jsstring) :
  scan r before after = true <->
  exists pre post,
    after = pre ++ post
    /\ matcher r (rev pre ++ before, post) (fun _ => true) = true.
Proof.
  revert before. induction after as [|c rest IH]; intros before; simpl.
  - rewrite orb_false_r. split.
    + intros H. now exists [], [].
    + intros [pre [post [H1 H2]]].
      symmetry in H1. apply app_eq_nil in H1 as [-> ->]. exact H2.
  - rewrite orb_true_iff, IH. split.
    + intros [H | [pre [post [-> H]]]].
      * now exists [], (c :: rest).
      * exists (c :: pre), post. simpl. rewrite <- app_assoc. now split.
    + intros [[|d pre] [post [H1 H2]]].
      * left. simpl in *. now subst post.
      * right. injection H1 as -> ->. exists pre, post. split; trivial.
        simpl in H2. now rewrite <- app_assoc in H2.
Qed.

(** [/(a|b|...)/] accepts the texts one of the terms occurs in. *)
Lemma test_alts (l : list jsstring) (s : jsstring) :
  l <> [] ->
  (test (alts l) s = true <-> exists w, In w l /\ occursIn w s).
Proof.
  intros Hl. unfold test, occursIn. rewrite scan_spec. split.
  - intros [pre [post [-> H]]].
    apply (matcher_alts l _ _ Hl) in H as [w [Hw H]].
    apply matcher_lit in H as [rest [H _]]. simpl in H. subst post.
    exists w. split; trivial. now exists pre, rest.
  - intros [w [Hw [pre [post ->]]]]. exists pre, (w ++ post). split; trivial.
    apply (matcher_alts l _ _ Hl). exists w. split; trivial.
    apply matcher_lit. now exists post.
Qed.

(** [/\b(a|b|...)\b/] accepts the texts one of the terms occurs in between
    two word boundaries. *)
Lemma test_word_alts (l : list jsstring) (s : jsstring) :
  l <> [] ->
  (test (Seq WordB (Seq (alts l) WordB)) s = true <->
   exists w, In w l /\ wordMatch w s).
Proof.
  intros Hl. unfold test, wordMatch, boundaryBetween. rewrite scan_spec.
  cbn [matcher]. unfold atBoundary. split.
  - intros [pre [post [-> H]]]. cbn [fst snd] in H. rewrite app_nil_r in H.
    destruct (xorb (wordAt (rev pre)) (wordAt post)) eqn:B1; [|discriminate].
    apply (matcher_alts l _ _ Hl) in H as [w [Hw H]].
    apply matcher_lit in H as [rest [H1 H2]]. cbn [fst snd] in H1, H2. subst post.
    destruct (xorb (wordAt (rev w ++ rev pre)) (wordAt rest)) eqn:B2; [|discriminate].
    exists w. split; trivial. exists pre, rest. rewrite rev_app_distr. auto.
  - intros [w [Hw [pre [post [-> [B1 B2]]]]]]. exists pre, (w ++ post).
    split; trivial. cbn [fst snd]. rewrite app_nil_r, B1.
    apply (matcher_alts l _ _ Hl). exists w. split; trivial.
    apply matcher_lit. exists post. cbn [fst snd]. split; trivial.
    rewrite rev_app_distr in B2. now rewrite B2.
Qed.

(** The brevity test: the pattern only accepts texts "short" occurs in, so
    the flag is exactly the substring test. *)
Lemma wantsShort_spec (s : jsstring) :
  wantsShort s = true <-> occursIn (js "short") s.
Proof.
  unfold wantsShort. rewrite orb_true_iff, includes_spec. split; [|auto].
  intros [H | H]; trivial.
  unfold test in H. apply scan_spec in H as [pre [post [-> H]]].
  cbn [matcher] in H.
  destruct (atBoundary (rev pre ++ [], post)); [|discriminate].
  apply matcher_lit in H as [rest [H _]]. cbn [snd] in H. subst post.
  now exists pre, rest.
Qed.

Lemma isDefinitionRequest_spec (s : jsstring) :
  isDefinitionRequest s = true <->
  (exists w, In w transliteratedTerms /\ occursIn w s)
  \/ (exists w, In w definitionTerms /\ wordMatch w s).
Proof.
  unfold isDefinitionRequest.
  rewrite orb_true_iff, test_alts, test_word_alts by discriminate. reflexivity.
Qed.

Lemma appreciation_spec (s : jsstring) :
  test appreciationRegex s = true <->
  exists w, In w appreciationTerms /\ wordMatch w s.
Proof. apply test_word_alts. discriminate. Qed.

(* ================================================================= *)
(** ** The paths of the handler *)

Lemma run_without_body (w : World) (rq : Req) :
  body rq = None -> run w rq = (inl TypeError, []).
Proof. intros H. unfold run, getChatResponse. now rewrite H. Qed.

Lemma run_without_message (w : World) (rq : Req) (b : Body) :
  body rq = Some b -> message b = None ->
  run w rq = (inr apologyReply, [CallConsoleError]).
Proof.
  intros Hb Hm. unfold run, getChatResponse, tryBlock. rewrite Hb.
  unfold bind, try_catch. simpl. now rewrite Hm.
Qed.

Lemma run_appreciation (w : World) (rq : Req) (b : Body) (m : jsstring) :
  body rq = Some b -> message b = Some m ->
  test appreciationRegex (normalize m) = true ->
  run w rq =
  (inr {| status := 200; r_role := assistant;
          r_body_content := index quickReplies (randomIndex w) |},
   [CallRandom]).
Proof.
  intros Hb Hm Ha. unfold run, getChatResponse, tryBlock. rewrite Hb.
  unfold bind, try_catch. simpl. rewrite Hm. simpl. now rewrite Ha.
Qed.

Lemma run_without_user (w : World) (rq : Req) (b : Body) (m : jsstring) :
  body rq = Some b -> message b = Some m ->
  test appreciationRegex (normalize m) = false -> user rq = None ->
  run w rq = (inr apologyReply, [CallConsoleError]).
Proof.
  intros Hb Hm Ha Hu. unfold run, getChatResponse, tryBlock. rewrite Hb.
  unfold bind, try_catch. simpl. rewrite Hm. simpl. rewrite Ha, Hu. reflexivity.
Qed.

Lemma run_lookup_rejected (w : World) (rq : Req) (b : Body) (m id : jsstring) (e : exn) :
  reachesLookup rq b m id ->
  User_findById w id = Rejected e ->
  run w rq = (inr apologyReply, [CallFindById id; CallConsoleError]).
Proof.
  intros (Hb & Hm & Hu & Ha) Hf. unfold run, getChatResponse, tryBlock. rewrite Hb.
  unfold bind, try_catch. simpl. rewrite Hm. simpl. rewrite Ha, Hu. simpl.
  unfold await. rewrite Hf. reflexivity.
Qed.

Lemma run_engine_rejected (w : World) (rq : Req) (b : Body) (m id : jsstring)
      (doc : option UserDoc) (e : exn) :
  reachesLookup rq b m id ->
  User_findById w id = Resolved doc ->
  generateContent w (conversationFor (history b) m doc) = Rejected e ->
  run w rq =
  (inr apologyReply,
   [CallFindById id; CallGenerateContent (conversationFor (history b) m doc);
    CallConsoleError]).
Proof.
  intros (Hb & Hm & Hu & Ha) Hf Hg. unfold run, getChatResponse, tryBlock. rewrite Hb.
  unfold bind, try_catch. simpl. rewrite Hm. simpl. rewrite Ha, Hu. simpl.
  unfold await. rewrite Hf.
  fold (promptFor m doc). fold (conversationFor (history b) m doc).
  rewrite Hg. reflexivity.
Qed.

Lemma run_engine_resolved (w : World) (rq : Req) (b : Body) (m id : jsstring)
      (doc : option UserDoc) (result : option GResult) :
  reachesLookup rq b m id ->
  User_findById w id = Resolved doc ->
  generateContent w (conversationFor (history b) m doc) = Resolved result ->
  run w rq =
  (inr (engineReply result),
   [CallFindById id; CallGenerateContent (conversationFor (history b) m doc)]).
Proof.
  intros (Hb & Hm & Hu & Ha) Hf Hg. unfold run, getChatResponse, tryBlock. rewrite Hb.
  unfold bind, try_catch. simpl. rewrite Hm. simpl. rewrite Ha, Hu. simpl.
  unfold await. rewrite Hf.
  fold (promptFor m doc). fold (conversationFor (history b) m doc).
  rewrite Hg. reflexivity.
Qed.

(* ================================================================= *)
(** ** The properties of the handler *)

Lemma randomIndex_in_pool (w : World) :
  valid_random w ->
  exists reply,
    index quickReplies (randomIndex w) = Some reply /\ In reply quickReplies.
Proof.
  unfold valid_random, randomIndex, index. intros H.
  change (2 ^ 53) with 9007199254740992 in *.
  change (Z.of_nat (List.length quickReplies)) with 4.
  set (i := Math_random w * 4 / 9007199254740992).
  assert (Hi : 0 <= i < 4).
  { subst i. split.
    - apply Z.div_pos; lia.
    - apply Z.div_lt_upper_bound; lia. }
  destruct (Z.ltb_spec i 0) as [Hneg | _]; [lia |].
  destruct (nth_error quickReplies (Z.to_nat i)) as [reply |] eqn:E.
  - exists reply. split; trivial. exact (nth_error_In _ _ E).
  - apply nth_error_None in E.
    change (List.length quickReplies) with 4%nat in E. lia.
Qed.

(** C1: a message whose normalized text contains an appreciation term
    between word boundaries is classified Appreciation, whatever else it
    contains; the handler answers with one of the canned replies and makes
    no call to the completion engine (nor to the profile store). *)
Theorem appreciation_short_circuits
        (w : World) (rq : Req) (b : Body) (m term : jsstring) :
  body rq = Some b -> message b = Some m ->
  In term appreciationTerms -> wordMatch term (normalize m) ->
  valid_random w ->
  intentOf (normalize m) = Appreciation
  /\ (exists reply,
        In reply quickReplies
        /\ run w rq = (inr (okReply reply), [CallRandom]))
  /\ engineCalls (snd (run w rq)) = 0%nat
  /\ profileCalls (snd (run w rq)) = 0%nat.
Proof.
  intros Hb Hm Hterm Hocc Hrnd.
  assert (Ha : test appreciationRegex (normalize m) = true).
  { apply appreciation_spec. now exists term. }
  rewrite (run_appreciation w rq b m Hb Hm Ha).
  destruct (randomIndex_in_pool w Hrnd) as [reply [Hi Hin]].
  repeat split.
  - unfold intentOf. now rewrite Ha.
  - exists reply. split; trivial. now rewrite Hi.
Qed.

Lemma intent_when_delegated (s : jsstring) :
  test appreciationRegex s = false ->
  (intentOf s = DefinitionRequest <-> isDefinitionRequest s = true).
Proof.
  intros H. unfold intentOf. rewrite H.
  destruct (isDefinitionRequest s); split; congruence.
Qed.

Lemma finalMessage_shape (ctx m : jsstring) (short oneLine telugu definition : bool) :
  finalMessage ctx m short oneLine telugu definition =
  ctx ++ newline ++ js "User: " ++ m
      ++ (if short then briefLine else [])
      ++ (if oneLine then oneSentenceLine else [])
      ++ (if telugu && negb definition then teluguLine else []).
Proof.
  unfold finalMessage.
  generalize (js "User: "), briefLine, oneSentenceLine, teluguLine, newline.
  intros u l1 l2 l3 nl.
  destruct short, oneLine, (telugu && negb definition);
    repeat rewrite <- app_assoc; repeat rewrite app_nil_r;
    repeat rewrite app_nil_l; reflexivity.
Qed.

(** Whatever the completion engine does, a request that gets past the
    profile lookup calls it once, right after the lookup. *)
Lemma trace_when_delegated (w : World) (rq : Req) (b : Body) (m id : jsstring)
      (doc : option UserDoc) :
  reachesLookup rq b m id ->
  User_findById w id = Resolved doc ->
  exists rest,
    snd (run w rq) =
    CallFindById id :: CallGenerateContent (conversationFor (history b) m doc) :: rest
    /\ (rest = [] \/ rest = [CallConsoleError]).
Proof.
  intros Hr Hf.
  destruct (generateContent w (conversationFor (history b) m doc)) as [result | e] eqn:Hg.
  - rewrite (run_engine_resolved w rq b m id doc result Hr Hf Hg). exists []. auto.
  - rewrite (run_engine_rejected w rq b m id doc e Hr Hf Hg).
    exists [CallConsoleError]. auto.
Qed.

(** C2: the system context of the prompt sent to the completion engine
    follows a three-way precedence: Telugu script and a definition request
    give the Telugu definition context, a definition request alone the
    English one, anything else the career-advice context with the rendered
    skills; in the Telugu definition case the prompt ends after the
    brevity and one-sentence lines, without the Telugu directive. *)
Theorem context_precedence
        (w : World) (rq : Req) (b : Body) (m id : jsstring) (doc : option UserDoc) :
  reachesLookup rq b m id ->
  User_findById w id = Resolved doc ->
  exists ctx tail,
    In (CallGenerateContent
          (chatHistory (history b)
             ++ [userTurn (ctx ++ newline ++ js "User: " ++ m ++ tail)]))
       (snd (run w rq))
    /\ (isTelugu m = true -> intentOf (normalize m) = DefinitionRequest ->
        ctx = js "The user is asking for a definition/explanation in Telugu."
        /\ tail = (if wantsShort (normalize m) then briefLine else [])
                    ++ (if wantsOneLine (normalize m) then oneSentenceLine else []))
    /\ (isTelugu m = false -> intentOf (normalize m) = DefinitionRequest ->
        ctx = js "The user is asking for a definition/explanation in English.")
    /\ (intentOf (normalize m) <> DefinitionRequest ->
        ctx = js "The user is asking for career advice. They have the following skills: "
                ++ userSkills doc ++ js ".").
Proof.
  intros Hr Hf.
  destruct (trace_when_delegated w rq b m id doc Hr Hf) as [rest [Ht _]].
  destruct Hr as (_ & _ & _ & Ha).
  pose proof (intent_when_delegated (normalize m) Ha) as Hi.
  exists (systemContext (isTelugu m) (isDefinitionRequest (normalize m)) (userSkills doc)).
  exists ((if wantsShort (normalize m) then briefLine else [])
            ++ (if wantsOneLine (normalize m) then oneSentenceLine else [])
            ++ (if isTelugu m && negb (isDefinitionRequest (normalize m))
                then teluguLine else [])).
  split; [| split; [| split]].
  - rewrite Ht. right. left. unfold conversationFor, promptFor.
    rewrite finalMessage_shape. reflexivity.
  - intros Htel Hd. apply Hi in Hd. rewrite Htel, Hd. split.
    + reflexivity.
    + cbn [andb negb]. rewrite app_nil_r. reflexivity.
  - intros Htel Hd. apply Hi in Hd. rewrite Htel, Hd. reflexivity.
  - intros Hd. destruct (isDefinitionRequest (normalize m)) eqn:E.
    + exfalso. apply Hd, Hi. reflexivity.
    + unfold systemContext. rewrite andb_false_r. reflexivity.
Qed.

(** C3: for a message that is not an appreciation, the last turn handed to
    the completion engine is the system context, a newline, "User: " and
    the original text, followed in this order by the brevity line iff the
    brief flag is set, the one-sentence line iff the single-sentence flag is
    set, and the Telugu career-guidance line iff Telugu script was detected
    and the intent is not DefinitionRequest. *)
Theorem final_message_layout
        (w : World) (rq : Req) (b : Body) (m id : jsstring) (doc : option UserDoc) :
  reachesLookup rq b m id ->
  User_findById w id = Resolved doc ->
  let lowerMsg := normalize m in
  let definition := isDefinitionRequest lowerMsg in
  let final :=
    systemContext (isTelugu m) definition (userSkills doc)
      ++ newline ++ js "User: " ++ m
      ++ (if wantsShort lowerMsg then briefLine else [])
      ++ (if wantsOneLine lowerMsg then oneSentenceLine else [])
      ++ (if isTelugu m && negb definition then teluguLine else []) in
  (definition = true <-> intentOf lowerMsg = DefinitionRequest)
  /\ exists rest,
      snd (run w rq) =
      CallFindById id
        :: CallGenerateContent (chatHistory (history b) ++ [userTurn final]) :: rest.
Proof.
  intros Hr Hf lowerMsg definition final.
  destruct (trace_when_delegated w rq b m id doc Hr Hf) as [rest [Ht _]].
  destruct Hr as (_ & _ & _ & Ha). split.
  - symmetry. exact (intent_when_delegated lowerMsg Ha).
  - exists rest. rewrite Ht. unfold conversationFor, promptFor.
    rewrite finalMessage_shape. reflexivity.
Qed.

(** C5: the conversation handed to the completion engine is the prior
    turns, each with its role and content, in their order, followed by one
    user turn holding the final message; its length is the number of prior
    turns plus one. *)
Theorem conversation_keeps_history
        (w : World) (rq : Req) (b : Body) (m id : jsstring) (doc : option UserDoc) :
  reachesLookup rq b m id ->
  User_findById w id = Resolved doc ->
  exists contents rest,
    snd (run w rq) = CallFindById id :: CallGenerateContent contents :: rest
    /\ List.length contents = S (List.length (orEmpty (history b)))
    /\ nth_error contents (List.length (orEmpty (history b)))
       = Some {| c_role := js "user"; parts := [{| text := promptFor m doc |}] |}
    /\ (forall i t,
          nth_error (orEmpty (history b)) i = Some t ->
          nth_error contents i
          = Some {| c_role := role t; parts := [{| text := content t |}] |}).
Proof.
  intros Hr Hf.
  destruct (trace_when_delegated w rq b m id doc Hr Hf) as [rest [Ht _]].
  exists (conversationFor (history b) m doc), rest.
  unfold conversationFor, chatHistory. repeat split.
  - exact Ht.
  - rewrite length_app, length_map. simpl. lia.
  - rewrite nth_error_app2; rewrite length_map; [| lia].
    rewrite Nat.sub_diag. reflexivity.
  - intros i t Hi.
    rewrite nth_error_app1.
    + rewrite nth_error_map, Hi. reflexivity.
    + rewrite length_map. apply nth_error_Some. congruence.
Qed.

Lemma trim_fallbackText : trim fallbackText = fallbackText.
Proof. vm_compute. reflexivity. Qed.

Lemma apology_is_not_fallback : apologyText <> fallbackText.
Proof. intros H. apply (f_equal (@List.length Z)) in H. vm_compute in H. discriminate. Qed.

Lemma degenerate_output_reply (result : option GResult) :
  candidateText result = None \/ candidateText result = Some [] ->
  engineReply result = okReply fallbackText.
Proof.
  intros [H | H]; unfold engineReply, okReply; rewrite H; simpl or_else;
    now rewrite trim_fallbackText.
Qed.

(** Once the request has a body, the handler always answers, and the
    answer is an assistant turn with a string content. *)
Lemma run_well_formed (w : World) (rq : Req) :
  body rq <> None -> valid_random w ->
  exists st c,
    fst (run w rq) = inr {| status := st; r_role := assistant; r_body_content := Some c |}.
Proof.
  intros Hb Hrnd. destruct (body rq) as [b |] eqn:Eb; [clear Hb | congruence].
  destruct (message b) as [m |] eqn:Em.
  2:{ rewrite (run_without_message w rq b Eb Em). now exists 500, apologyText. }
  destruct (test appreciationRegex (normalize m)) eqn:Ea.
  { rewrite (run_appreciation w rq b m Eb Em Ea).
    destruct (randomIndex_in_pool w Hrnd) as [reply [Hi _]].
    exists 200, reply. simpl. now rewrite Hi. }
  destruct (user rq) as [id |] eqn:Eu.
  2:{ rewrite (run_without_user w rq b m Eb Em Ea Eu). now exists 500, apologyText. }
  assert (Hr : reachesLookup rq b m id) by (repeat split; assumption).
  destruct (User_findById w id) as [doc | e] eqn:Ef.
  2:{ rewrite (run_lookup_rejected w rq b m id e Hr Ef). now exists 500, apologyText. }
  destruct (generateContent w (conversationFor (history b) m doc)) as [result | e] eqn:Eg.
  - rewrite (run_engine_resolved w rq b m id doc result Hr Ef Eg).
    now exists 200, (trim (or_else (candidateText result) fallbackText)).
  - rewrite (run_engine_rejected w rq b m id doc e Hr Ef Eg). now exists 500, apologyText.
Qed.

(** C4: when the completion-engine call rejects, the reply is the fixed
    apology; when it resolves without a candidate, or with a missing or
    empty text, the reply is the fixed fallback text; the two texts differ;
    in both cases, and on every other path of a request that has a body,
    the handler returns an assistant turn with a string content and no
    exception escapes. *)
Theorem engine_failure_replies
        (w : World) (rq : Req) (b : Body) (m id : jsstring) (doc : option UserDoc) :
  reachesLookup rq b m id ->
  User_findById w id = Resolved doc ->
  (forall e,
      generateContent w (conversationFor (history b) m doc) = Rejected e ->
      fst (run w rq) = inr apologyReply)
  /\ (forall result,
        generateContent w (conversationFor (history b) m doc) = Resolved result ->
        candidateText result = None \/ candidateText result = Some [] ->
        fst (run w rq) = inr (okReply fallbackText))
  /\ apologyText <> fallbackText
  /\ (forall w' rq',
        body rq' <> None -> valid_random w' ->
        exists st c,
          fst (run w' rq')
          = inr {| status := st; r_role := assistant; r_body_content := Some c |}).
Proof.
  intros Hr Hf. repeat split.
  - intros e Hg. now rewrite (run_engine_rejected w rq b m id doc e Hr Hf Hg).
  - intros result Hg Hd.
    rewrite (run_engine_resolved w rq b m id doc result Hr Hf Hg).
    simpl. f_equal. now apply degenerate_output_reply.
  - exact apology_is_not_fallback.
  - exact run_well_formed.
Qed.

(** A text of blanks is not empty: it is trimmed, not replaced. *)
Example blank_answer_is_kept :
  engineReply (answer (Some (js "  "))) = okReply []
  /\ engineReply (answer (Some [])) = okReply fallbackText
  /\ engineReply (answer None) = okReply fallbackText
  /\ engineReply None = okReply fallbackText.
Proof. repeat split; vm_compute; reflexivity. Qed.

(** C10: a request that is not an appreciation queries the profile store
    exactly once, as its first call and so before the completion engine is
    called, whatever its intent; when the query fails the reply is the
    fixed apology and the completion engine is not called. *)
Theorem profile_lookup_comes_first
        (w : World) (rq : Req) (b : Body) (m id : jsstring) :
  reachesLookup rq b m id ->
  profileCalls (snd (run w rq)) = 1%nat
  /\ (exists rest, snd (run w rq) = CallFindById id :: rest)
  /\ (forall e,
        User_findById w id = Rejected e ->
        run w rq = (inr apologyReply, [CallFindById id; CallConsoleError])
        /\ engineCalls (snd (run w rq)) = 0%nat).
Proof.
  intros Hr.
  destruct (User_findById w id) as [doc | e] eqn:Hf.
  - destruct (trace_when_delegated w rq b m id doc Hr Hf) as [rest [Ht Hrest]].
    rewrite Ht. repeat split.
    + destruct Hrest as [-> | ->]; reflexivity.
    + now exists (CallGenerateContent (conversationFor (history b) m doc) :: rest).
    + discriminate.
    + discriminate.
  - rewrite (run_lookup_rejected w rq b m id e Hr Hf). repeat split.
    now exists [CallConsoleError].
Qed.

Lemma explain_facts :
  basicLatin U ->
  test appreciationRegex (normalize explainMessage) = false
  /\ isDefinitionRequest (normalize explainMessage) = true
  /\ isTelugu explainMessage = false
  /\ wantsShort (normalize explainMessage) = false
  /\ wantsOneLine (normalize explainMessage) = false.
Proof.
  intros HU.
  rewrite (normalize_basic_latin explainMessage HU) by (vm_compute; reflexivity).
  repeat split; vm_compute; reflexivity.
Qed.

Lemma explain_prompt (doc : option UserDoc) :
  basicLatin U ->
  promptFor explainMessage doc =
  js "The user is asking for a definition/explanation in English."
    ++ newline ++ js "User: " ++ explainMessage.
Proof.
  intros HU. destruct (explain_facts HU) as (_ & Hd & Ht & Hs & Ho).
  unfold promptFor. rewrite Hd, Ht, Hs, Ho. reflexivity.
Qed.

(** The handler returns early exactly on the messages classified
    Appreciation. *)
Lemma short_circuit_iff_appreciation (w : World) (rq : Req) (b : Body) (m : jsstring) :
  body rq = Some b -> message b = Some m ->
  (intentOf (normalize m) = Appreciation <-> snd (run w rq) = [CallRandom]).
Proof.
  intros Hb Hm. unfold intentOf.
  destruct (test appreciationRegex (normalize m)) eqn:Ha.
  - rewrite (run_appreciation w rq b m Hb Hm Ha). split; reflexivity.
  - split.
    + destruct (isDefinitionRequest (normalize m)); discriminate.
    + destruct (user rq) as [id |] eqn:Hu.
      * assert (Hr : reachesLookup rq b m id) by (repeat split; assumption).
        destruct (User_findById w id) as [doc | e] eqn:Hf.
        -- destruct (trace_when_delegated w rq b m id doc Hr Hf) as [rest [-> _]].
           discriminate.
        -- rewrite (run_lookup_rejected w rq b m id e Hr Hf). discriminate.
      * rewrite (run_without_user w rq b m Hb Hm Ha Hu). discriminate.
Qed.

(** C8: every normalized message has exactly one intent: Appreciation iff
    an appreciation term occurs between word boundaries; otherwise
    DefinitionRequest iff one of gurinchi, cheppu, chepu occurs or one of
    the English definition phrases occurs between word boundaries;
    otherwise CareerAdvice.  "explain recursion" is a DefinitionRequest in
    the default language, and its system context is the English one (on
    any engine whose tables lower-case Basic Latin as Unicode does). *)
Theorem intent_classification :
  (forall s : jsstring,
      let appreciated := exists t, In t appreciationTerms /\ wordMatch t s in
      let defined :=
        (exists t, In t transliteratedTerms /\ occursIn t s)
        \/ (exists t, In t definitionTerms /\ wordMatch t s) in
      (intentOf s = Appreciation <-> appreciated)
      /\ (intentOf s = DefinitionRequest <-> ~ appreciated /\ defined)
      /\ (intentOf s = CareerAdvice <-> ~ appreciated /\ ~ defined))
  /\ (forall w rq b m,
        body rq = Some b -> message b = Some m ->
        (intentOf (normalize m) = Appreciation <-> snd (run w rq) = [CallRandom]))
  /\ (basicLatin U ->
      intentOf (normalize explainMessage) = DefinitionRequest
      /\ isTelugu explainMessage = false
      /\ (forall doc,
            promptFor explainMessage doc =
            js "The user is asking for a definition/explanation in English."
              ++ newline ++ js "User: " ++ explainMessage)).
Proof.
  split; [| split; [exact short_circuit_iff_appreciation |]].
  - intros s appreciated defined. subst appreciated defined.
    rewrite <- appreciation_spec, <- isDefinitionRequest_spec. unfold intentOf.
    destruct (test appreciationRegex s), (isDefinitionRequest s);
      repeat split; intros; try discriminate; try tauto;
      try (destruct H; congruence).
  - intros HU. destruct (explain_facts HU) as (Ha & Hd & Ht & _).
    split; [unfold intentOf; now rewrite Ha, Hd |].
    split; [exact Ht |]. intros doc. now apply explain_prompt.
Qed.

(** With a string message the [catch] block is only entered for a missing
    user or a collaborator that rejects. *)
Lemma catch_needs_a_failure (w : World) (rq : Req) (b : Body) (m : jsstring) :
  body rq = Some b -> message b = Some m ->
  In CallConsoleError (snd (run w rq)) ->
  user rq = None
  \/ exists id,
      user rq = Some id
      /\ ((exists e, User_findById w id = Rejected e)
          \/ (exists doc e,
                User_findById w id = Resolved doc
                /\ generateContent w (conversationFor (history b) m doc) = Rejected e)).
Proof.
  intros Hb Hm Hin.
  destruct (test appreciationRegex (normalize m)) eqn:Ha.
  { rewrite (run_appreciation w rq b m Hb Hm Ha) in Hin.
    destruct Hin as [H | []]. discriminate. }
  destruct (user rq) as [id |] eqn:Hu; [right; exists id; split; trivial | now left].
  assert (Hr : reachesLookup rq b m id) by (repeat split; assumption).
  destruct (User_findById w id) as [doc | e] eqn:Hf; [right | left; now exists e].
  destruct (generateContent w (conversationFor (history b) m doc)) as [result | e] eqn:Hg.
  - rewrite (run_engine_resolved w rq b m id doc result Hr Hf Hg) in Hin.
    destruct Hin as [H | [H | []]]; discriminate.
  - now exists doc, e.
Qed.

(** C9: normalizing (lower-casing, then trimming) twice gives what
    normalizing once gives, on any engine whose lower-case mappings yield
    lower-case code points; on a string message normalization raises
    nothing, the [catch] block being entered only for a missing user or a
    rejecting collaborator; and the original text is what the prompt
    echoes. *)
Theorem normalization_idempotent :
  (lowerStable U -> forall s, normalize (normalize s) = normalize s)
  /\ (forall w rq b m,
        body rq = Some b -> message b = Some m ->
        In CallConsoleError (snd (run w rq)) ->
        user rq = None
        \/ exists id,
            user rq = Some id
            /\ ((exists e, User_findById w id = Rejected e)
                \/ (exists doc e,
                      User_findById w id = Resolved doc
                      /\ generateContent w (conversationFor (history b) m doc)
                         = Rejected e)))
  /\ (forall m doc,
        exists tail,
          promptFor m doc =
          systemContext (isTelugu m) (isDefinitionRequest (normalize m)) (userSkills doc)
            ++ newline ++ js "User: " ++ m ++ tail).
Proof.
  split; [| split; [exact catch_needs_a_failure |]].
  - intros HU s. now apply normalize_idempotent.
  - intros m doc. unfold promptFor. rewrite finalMessage_shape. eexists. reflexivity.
Qed.

Lemma briefly_facts :
  basicLatin U ->
  test appreciationRegex (normalize brieflyMessage) = false
  /\ isDefinitionRequest (normalize brieflyMessage) = false
  /\ isTelugu brieflyMessage = false
  /\ wantsShort (normalize brieflyMessage) = false
  /\ wantsOneLine (normalize brieflyMessage) = true.
Proof.
  intros HU.
  rewrite (normalize_basic_latin brieflyMessage HU) by (vm_compute; reflexivity).
  repeat split; vm_compute; reflexivity.
Qed.

(** C6, amended: for "Tell me briefly about machine learning, in one line"
    the directives are brief = false and singleSentence = true, the brief
    flag being set exactly when "short" occurs in the normalized text; the
    final message ends with the one-sentence line and has no brevity line;
    whenever both flags are set, the brevity line comes before the
    one-sentence line. *)
Theorem briefly_directives :
  (basicLatin U ->
   wantsShort (normalize brieflyMessage) = false
   /\ wantsOneLine (normalize brieflyMessage) = true
   /\ (forall doc,
         promptFor brieflyMessage doc =
         (js "The user is asking for career advice. They have the following skills: "
            ++ userSkills doc ++ js ".")
           ++ newline ++ js "User: " ++ brieflyMessage ++ oneSentenceLine))
  /\ (forall s, wantsShort s = true <-> occursIn (js "short") s)
  /\ (forall ctx m telugu definition,
        finalMessage ctx m true true telugu definition =
        ctx ++ newline ++ js "User: " ++ m ++ briefLine ++ oneSentenceLine
            ++ (if telugu && negb definition then teluguLine else [])).
Proof.
  split; [| split; [exact wantsShort_spec |]].
  - intros HU. destruct (briefly_facts HU) as (_ & Hd & Ht & Hs & Ho).
    split; [exact Hs | split; [exact Ho |]].
    intros doc. unfold promptFor. rewrite Hd, Ht, Hs, Ho.
    rewrite finalMessage_shape. cbn [andb negb systemContext].
    repeat rewrite app_nil_r. reflexivity.
  - intros ctx m telugu definition. apply finalMessage_shape.
Qed.

Lemma career_context (m : jsstring) (doc : option UserDoc) :
  intentOf (normalize m) = CareerAdvice ->
  exists tail,
    promptFor m doc =
    (js "The user is asking for career advice. They have the following skills: "
       ++ userSkills doc ++ js ".")
      ++ newline ++ js "User: " ++ m ++ tail.
Proof.
  unfold intentOf, promptFor. intros H.
  destruct (test appreciationRegex (normalize m)); [discriminate |].
  destruct (isDefinitionRequest (normalize m)); [discriminate |].
  rewrite finalMessage_shape. unfold systemContext. rewrite andb_false_r.
  eexists. reflexivity.
Qed.

(** C7: a skill is rendered as its name, a space and its proficiency in
    parentheses; the renderings are joined by ", "; a missing document, a
    missing skill list or an empty one render as the non-empty placeholder
    "None"; the career-advice context embeds this rendering. *)
Theorem skills_rendering :
  (forall s, renderSkill s = skillName s ++ js " (" ++ proficiency s ++ js ")")
  /\ (forall s l,
        userSkills (Some {| skills := Some (s :: l) |})
        = join (js ", ") (map renderSkill (s :: l)))
  /\ userSkills sampleDoc = js "JavaScript (Advanced), Python (Beginner)"
  /\ userSkills None = js "None"
  /\ userSkills (Some {| skills := None |}) = js "None"
  /\ userSkills (Some {| skills := Some [] |}) = js "None"
  /\ js "None" <> []
  /\ (forall m doc,
        intentOf (normalize m) = CareerAdvice ->
        exists tail,
          promptFor m doc =
          (js "The user is asking for career advice. They have the following skills: "
             ++ userSkills doc ++ js ".")
            ++ newline ++ js "User: " ++ m ++ tail).
Proof.
  split; [reflexivity |]. split; [reflexivity |].
  split; [vm_compute; reflexivity |].
  split; [reflexivity |]. split; [reflexivity |]. split; [reflexivity |].
  split; [vm_compute; discriminate | exact career_context].
Qed.

(* ================================================================= *)
(** ** Further properties of the handler *)

(** Every run of the handler takes one of six paths. *)
Lemma run_cases (w : World) (rq : Req) :
  run w rq = (inl TypeError, [])
  \/ run w rq = (inr apologyReply, [CallConsoleError])
  \/ run w rq
     = (inr {| status := 200; r_role := assistant;
               r_body_content := index quickReplies (randomIndex w) |}, [CallRandom])
  \/ (exists id, run w rq = (inr apologyReply, [CallFindById id; CallConsoleError]))
  \/ (exists id c,
        run w rq
        = (inr apologyReply, [CallFindById id; CallGenerateContent c; CallConsoleError]))
  \/ (exists id c result,
        run w rq = (inr (engineReply result), [CallFindById id; CallGenerateContent c])).
Proof.
  destruct (body rq) as [b |] eqn:Eb.
  2:{ left. exact (run_without_body w rq Eb). }
  destruct (message b) as [m |] eqn:Em.
  2:{ right. left. exact (run_without_message w rq b Eb Em). }
  destruct (test appreciationRegex (normalize m)) eqn:Ea.
  { right. right. left. exact (run_appreciation w rq b m Eb Em Ea). }
  destruct (user rq) as [id |] eqn:Eu.
  2:{ right. left. exact (run_without_user w rq b m Eb Em Ea Eu). }
  assert (Hr : reachesLookup rq b m id) by (repeat split; assumption).
  destruct (User_findById w id) as [doc | e] eqn:Ef.
  2:{ right. right. right. left. exists id.
      exact (run_lookup_rejected w rq b m id e Hr Ef). }
  destruct (generateContent w (conversationFor (history b) m doc)) as [result | e] eqn:Eg.
  - do 5 right. exists id, (conversationFor (history b) m doc), result.
    exact (run_engine_resolved w rq b m id doc result Hr Ef Eg).
  - do 4 right. left. exists id, (conversationFor (history b) m doc).
    exact (run_engine_rejected w rq b m id doc e Hr Ef Eg).
Qed.

(** X1: a request without a parsed body makes the handler throw before its
    [try] block: the TypeError escapes, nothing is answered and no call is
    made.  A body whose message is not a string, and a request without an
    authenticated user, are answered with the status-500 apology without
    any call to the profile store or the completion engine. *)
Theorem malformed_requests (w : World) (rq : Req) :
  (body rq = None -> run w rq = (inl TypeError, []))
  /\ (forall b,
        body rq = Some b -> message b = None ->
        run w rq = (inr apologyReply, [CallConsoleError]))
  /\ (forall b m,
        body rq = Some b -> message b = Some m ->
        test appreciationRegex (normalize m) = false -> user rq = None ->
        run w rq = (inr apologyReply, [CallConsoleError])).
Proof.
  split; [exact (run_without_body w rq) | split].
  - exact (run_without_message w rq).
  - exact (run_without_user w rq).
Qed.

(** X2: whatever the collaborators do, the handler calls the completion
    engine at most once and the profile store at most once, never retries,
    calls the engine only right after the profile lookup, makes no
    collaborator call once it has drawn a random reply, and answers with
    status 500 exactly when it logged an error, with status 200 otherwise. *)
Theorem call_discipline (w : World) (rq : Req) :
  (engineCalls (snd (run w rq)) <= 1)%nat
  /\ (profileCalls (snd (run w rq)) <= 1)%nat
  /\ (engineCalls (snd (run w rq)) = 1%nat ->
      exists id c rest,
        snd (run w rq) = CallFindById id :: CallGenerateContent c :: rest)
  /\ (In CallRandom (snd (run w rq)) -> snd (run w rq) = [CallRandom])
  /\ (forall res,
        fst (run w rq) = inr res ->
        (status res = 500 <-> In CallConsoleError (snd (run w rq)))
        /\ (status res = 200 <-> ~ In CallConsoleError (snd (run w rq)))).
Proof.
  destruct (run_cases w rq)
    as [H | [H | [H | [[id H] | [[id [c H]] | [id [c [result H]]]]]]]];
    rewrite H; cbn [fst snd engineCalls profileCalls filter isEngineCall isProfileCall
                    List.length].
  - repeat split; try lia; try discriminate;
      try (intros []; fail); try (intros [E | []]; discriminate).
  - split; [lia | split; [lia | split; [discriminate | split]]].
    + intros [E | []]. discriminate.
    + intros res E. injection E as <-. cbn. split; split; auto.
      * intros E. discriminate.
      * intros E. exfalso. apply E. now left.
  - split; [lia | split; [lia | split; [discriminate | split; [reflexivity |]]]].
    intros res E. injection E as <-. cbn. split; split; auto.
    + discriminate.
    + intros [E | []]. discriminate.
    + intros _ [E | []]. discriminate.
  - split; [lia | split; [lia | split; [discriminate | split]]].
    + intros [E | [E | []]]; discriminate.
    + intros res E. injection E as <-. cbn. split; split; auto.
      * intros E. discriminate.
      * intros E. exfalso. apply E. right. now left.
  - split; [lia | split; [lia | split; [| split]]].
    + intros _. now exists id, c, [CallConsoleError].
    + intros [E | [E | [E | []]]]; discriminate.
    + intros res E. injection E as <-. cbn. split; split; auto.
      * intros E. discriminate.
      * intros E. exfalso. apply E. right. right. now left.
  - split; [lia | split; [lia | split; [| split]]].
    + intros _. now exists id, c, [].
    + intros [E | [E | []]]; discriminate.
    + intros res E. injection E as <-. cbn. split; split; auto.
      * discriminate.
      * intros [E | [E | []]]; discriminate.
      * intros _ [E | [E | []]]; discriminate.
Qed.

Lemma trimStart_nil_iff (s : jsstring) :
  trimStart s = [] <-> forallb isWhiteSpace s = true.
Proof.
  induction s as [|c r IH]; simpl.
  - split; reflexivity.
  - destruct (isWhiteSpace c); simpl; [exact IH | split; discriminate].
Qed.

Lemma trim_nil_iff (s : jsstring) : trim s = [] <-> forallb isWhiteSpace s = true.
Proof.
  unfold trim, trimEnd. split.
  - intros H. apply (f_equal (@rev Z)) in H. rewrite rev_involutive in H. simpl in H.
    apply trimStart_nil_iff in H.
    pose proof (trimStart_head s) as Hh.
    destruct (trimStart s) as [|c a] eqn:E.
    + now apply trimStart_nil_iff.
    + rewrite forallb_forall in H. simpl in Hh.
      rewrite (H c) in Hh; [discriminate |]. apply -> in_rev. now left.
  - intros H. apply trimStart_nil_iff in H. rewrite H. reflexivity.
Qed.

(** X3: the reply to a delegated request is decided by the text of the
    first part of the first candidate alone: when that text is not empty
    the content is the text trimmed, so it never starts or ends with white
    space, and it is empty exactly when the text is all white space; when
    the text is missing or empty the content is the fallback text.  The
    other parts and candidates are never read. *)
Theorem first_candidate_decides
        (w : World) (rq : Req) (b : Body) (m id : jsstring) (doc : option UserDoc)
        (t : option jsstring) (ps : list RPart) (cs : list Candidate) :
  reachesLookup rq b m id ->
  User_findById w id = Resolved doc ->
  generateContent w (conversationFor (history b) m doc) = Resolved (resultWith t ps cs) ->
  (forall c r,
      t = Some (c :: r) ->
      fst (run w rq) = inr (okReply (trim (c :: r)))
      /\ headWhite (trim (c :: r)) = false
      /\ headWhite (rev (trim (c :: r))) = false
      /\ (trim (c :: r) = [] <-> forallb isWhiteSpace (c :: r) = true))
  /\ (t = None \/ t = Some [] -> fst (run w rq) = inr (okReply fallbackText)).
Proof.
  intros Hr Hf Hg.
  rewrite (run_engine_resolved w rq b m id doc _ Hr Hf Hg). cbn [fst]. split.
  - intros c r ->. split; [reflexivity |].
    destruct (trim_ends (c :: r)) as [H1 H2].
    split; [exact H1 | split; [exact H2 | apply trim_nil_iff]].
  - intros Ht. f_equal. apply degenerate_output_reply.
    destruct Ht as [-> | ->]; [now left | now right].
Qed.

(** X4: the prompt of a definition request does not depend on the profile
    document: two worlds that differ only in the document the profile
    store resolves to run the handler to the same reply and the same
    calls, the skills being fetched but never sent. *)
Theorem definition_request_ignores_profile
        (w w' : World) (rq : Req) (b : Body) (m id : jsstring)
        (doc doc' : option UserDoc) :
  reachesLookup rq b m id ->
  intentOf (normalize m) = DefinitionRequest ->
  User_findById w id = Resolved doc ->
  User_findById w' id = Resolved doc' ->
  (forall c, generateContent w c = generateContent w' c) ->
  conversationFor (history b) m doc = conversationFor (history b) m doc'
  /\ run w rq = run w' rq.
Proof.
  intros Hr Hi Hf Hf' Hg.
  assert (Hd : isDefinitionRequest (normalize m) = true).
  { destruct Hr as (_ & _ & _ & Ha). now apply (intent_when_delegated _ Ha). }
  assert (Hc : conversationFor (history b) m doc = conversationFor (history b) m doc').
  { unfold conversationFor, promptFor, systemContext. rewrite Hd.
    destruct (isTelugu m); reflexivity. }
  split; [exact Hc |].
  destruct (generateContent w (conversationFor (history b) m doc)) as [r | e] eqn:Eg.
  - rewrite (run_engine_resolved w rq b m id doc r Hr Hf Eg).
    rewrite Hg, Hc in Eg.
    rewrite (run_engine_resolved w' rq b m id doc' r Hr Hf' Eg). now rewrite Hc.
  - rewrite (run_engine_rejected w rq b m id doc e Hr Hf Eg).
    rewrite Hg, Hc in Eg.
    rewrite (run_engine_rejected w' rq b m id doc' e Hr Hf' Eg). now rewrite Hc.
Qed.

(** X5: the single-sentence flag is set exactly when "one line", "1 line"
    or "single line" occurs between two word boundaries of the normalized
    text, or "in one line" occurs anywhere in it. *)
Theorem wantsOneLine_spec (s : jsstring) :
  wantsOneLine s = true <->
  (exists t, In t oneLineTerms /\ wordMatch t s) \/ occursIn (js "in one line") s.
Proof.
  unfold wantsOneLine.
  rewrite orb_true_iff, test_word_alts, includes_spec by discriminate. reflexivity.
Qed.

(** The substring test adds texts the pattern rejects, and a term inside a
    longer word sets nothing. *)
Example one_line_edges :
  wantsOneLine (js "put it in one liner") = true
  /\ wantsOneLine (js "that zone liner") = false
  /\ wantsOneLine (js "a single line, please") = true.
Proof. repeat split; vm_compute; reflexivity. Qed.

(** X6: the canned reply is picked by the quarter of [0, 1) the random
    number falls in: the index drawn is k exactly when the draw lies in
    [k/4, (k+1)/4), and the handler then answers with the k-th reply, so
    each of the four replies is given for exactly a quarter of the draws. *)
Theorem reply_by_quarter
        (w : World) (rq : Req) (b : Body) (m : jsstring) (k : Z) :
  body rq = Some b -> message b = Some m ->
  test appreciationRegex (normalize m) = true ->
  valid_random w ->
  0 <= k < 4 ->
  (randomIndex w = k <-> k * 2 ^ 51 <= Math_random w < (k + 1) * 2 ^ 51)
  /\ (randomIndex w = k ->
      fst (run w rq)
      = inr {| status := 200; r_role := assistant;
               r_body_content := nth_error quickReplies (Z.to_nat k) |}).
Proof.
  intros Hb Hm Ha Hv Hk. split.
  - unfold randomIndex, valid_random in *.
    change (Z.of_nat (List.length quickReplies)) with 4.
    change (2 ^ 53) with 9007199254740992 in *.
    change (2 ^ 51) with 2251799813685248. split.
    + intros <-.
      pose proof (Z.mul_div_le (Math_random w * 4) 9007199254740992 ltac:(lia)).
      pose proof (Z.mul_succ_div_gt (Math_random w * 4) 9007199254740992 ltac:(lia)).
      lia.
    + intros Hr. symmetry.
      apply (Z.div_unique _ _ k (Math_random w * 4 - k * 9007199254740992)); lia.
  - intros Hi. rewrite (run_appreciation w rq b m Hb Hm Ha). cbn [fst]. rewrite Hi.
    unfold index. destruct (Z.ltb_spec k 0); [lia | reflexivity].
Qed.

(* ================================================================= *)
(** ** Script detection and what normalization forgets *)

Lemma scan_range (lo hi : Z) (before after : jsstring) :
  scan (Range lo hi) before after
  = existsb (fun c => (lo <=? c) && (c <=? hi)) after.
Proof.
  revert before. induction after as [|c rest IH]; intros before; [reflexivity |].
  cbn [scan matcher snd fst existsb]. rewrite IH.
  destruct ((lo <=? c) && (c <=? hi)); reflexivity.
Qed.

(** X12: a message is taken for Telugu exactly when one of its code units
    lies in the Telugu block U+0C00..U+0C7F; a message without such a unit,
    for instance Telugu written in Latin letters, gets neither the Telugu
    definition context nor the Telugu directive, whatever phrases it
    holds. *)
Theorem telugu_detection (m : jsstring) :
  (isTelugu m = true <-> exists c, In c m /\ 3072 <= c <= 3199)
  /\ ((forall c, In c m -> c < 3072 \/ 3199 < c) ->
      isTelugu m = false
      /\ forall doc,
          promptFor m doc =
          (if isDefinitionRequest (normalize m)
           then js "The user is asking for a definition/explanation in English."
           else js "The user is asking for career advice. They have the following skills: "
                  ++ userSkills doc ++ js ".")
            ++ newline ++ js "User: " ++ m
            ++ (if wantsShort (normalize m) then briefLine else [])
            ++ (if wantsOneLine (normalize m) then oneSentenceLine else [])).
Proof.
  assert (Hiff : isTelugu m = true <-> exists c, In c m /\ 3072 <= c <= 3199).
  { unfold isTelugu, test. rewrite scan_range, existsb_exists.
    split; intros [c [Hin Hc]]; exists c; split; trivial.
    - apply andb_true_iff in Hc as [H1 H2]. apply Z.leb_le in H1, H2. lia.
    - apply andb_true_iff. split; apply Z.leb_le; lia. }
  split; [exact Hiff |].
  intros Hnone.
  assert (Hf : isTelugu m = false).
  { destruct (isTelugu m) eqn:E; trivial.
    destruct (proj1 Hiff eq_refl) as [c [Hin Hc]]. destruct (Hnone c Hin); lia. }
  split; [exact Hf |].
  intros doc. unfold promptFor. rewrite Hf, finalMessage_shape.
  unfold systemContext. cbn [andb]. rewrite app_nil_r.
  destruct (isDefinitionRequest (normalize m)); reflexivity.
Qed.

Lemma trimStart_blank_prefix (pre s : jsstring) :
  forallb isWhiteSpace pre = true -> trimStart (pre ++ s) = trimStart s.
Proof.
  induction pre as [|c r IH]; [reflexivity |]. cbn [forallb app trimStart].
  intros H. apply andb_true_iff in H as [-> H]. now apply IH.
Qed.

Lemma trimStart_app (s t : jsstring) :
  trimStart s <> [] -> trimStart (s ++ t) = trimStart s ++ t.
Proof.
  induction s as [|c r IH]; cbn [trimStart app]; [congruence |].
  destruct (isWhiteSpace c); [exact IH | reflexivity].
Qed.

Lemma forallb_rev (f : Z -> bool) (l : jsstring) :
  forallb f l = true -> forallb f (rev l) = true.
Proof.
  rewrite !forallb_forall. intros H c Hc. apply H. now apply in_rev.
Qed.

Lemma trim_blank_margins (pre s post : jsstring) :
  forallb isWhiteSpace pre = true -> forallb isWhiteSpace post = true ->
  trim (pre ++ s ++ post) = trim s.
Proof.
  intros Hpre Hpost. unfold trim. rewrite (trimStart_blank_prefix pre _ Hpre).
  destruct (trimStart s) as [|c a] eqn:E.
  - assert (Hall : forallb isWhiteSpace (s ++ post) = true).
    { rewrite forallb_app. apply andb_true_iff. split; trivial.
      now apply trimStart_nil_iff. }
    apply trimStart_nil_iff in Hall. rewrite Hall. reflexivity.
  - rewrite trimStart_app by congruence. rewrite E.
    unfold trimEnd. rewrite rev_app_distr.
    rewrite (trimStart_blank_prefix (rev post) _ (forallb_rev _ _ Hpost)). reflexivity.
Qed.

Lemma blank_is_no_surrogate (c : Z) :
  isWhiteSpace c = true -> isHighSurrogate c = false /\ isLowSurrogate c = false.
Proof.
  intros H. apply not_surrogate_outside.
  destruct (Z_lt_le_dec c 12289) as [Hs | Hb]; [lia |].
  destruct (Z.eq_dec c 65279) as [-> | Hne]; [lia |].
  rewrite (not_blank_above c Hb Hne) in H. discriminate.
Qed.

Lemma blanks_Forall (l : jsstring) :
  forallb isWhiteSpace l = true -> Forall (fun c => isWhiteSpace c = true) l.
Proof. rewrite forallb_forall, Forall_forall. auto. Qed.

Lemma codePoints_blank_prefix (pre s : jsstring) :
  forallb isWhiteSpace pre = true -> codePoints (pre ++ s) = pre ++ codePoints s.
Proof.
  intros H. apply blanks_Forall in H. induction H as [|c pre Hc _ IH]; trivial.
  cbn [app]. rewrite codePoints_single.
  - now rewrite IH.
  - now rewrite (proj1 (blank_is_no_surrogate c Hc)).
Qed.

Lemma headLow_blanks (post : jsstring) :
  forallb isWhiteSpace post = true -> headLow post = false.
Proof.
  destruct post as [|c post]; trivial. cbn [forallb headLow].
  intros H. apply andb_true_iff in H as [Hc _].
  exact (proj2 (blank_is_no_surrogate c Hc)).
Qed.

Lemma codePoints_blanks (post : jsstring) :
  forallb isWhiteSpace post = true -> codePoints post = post.
Proof.
  intros H. rewrite <- (app_nil_r post) at 1.
  now rewrite (codePoints_blank_prefix post [] H), app_nil_r.
Qed.

Lemma codePoints_blank_suffix (s post : jsstring) :
  forallb isWhiteSpace post = true -> codePoints (s ++ post) = codePoints s ++ post.
Proof.
  intros H. induction s as [| a | a b r IHr IHbr] using pairs_induction.
  - now apply codePoints_blanks.
  - cbn [app]. rewrite codePoints_single.
    + now rewrite (codePoints_blanks post H).
    + now rewrite (headLow_blanks post H), andb_false_r.
  - cbn [app]. rewrite (codePoints_eq (a :: b :: r ++ post)), (codePoints_eq (a :: b :: r)).
    destruct (isHighSurrogate a && isLowSurrogate b).
    + cbn [app]. now rewrite IHr.
    + cbn [app]. f_equal. exact IHbr.
Qed.

Lemma codeUnits_blanks (l : list Z) :
  forallb isWhiteSpace l = true -> codeUnits l = l.
Proof.
  intros H. apply codeUnits_plain. apply blanks_Forall in H.
  eapply Forall_impl; [| exact H]. intros c Hc. cbn beta in *.
  apply blank_is_small in Hc. lia.
Qed.

Lemma nextIsCased_uncased (l W : list Z) :
  Forall (fun c => cased U c = false) W ->
  nextIsCased U (l ++ W) = nextIsCased U l.
Proof.
  intros HW.
  assert (H0 : nextIsCased U W = false).
  { induction HW as [|c W Hc _ IH]; trivial. cbn [nextIsCased].
    destruct (caseIgnorable U c); trivial. }
  induction l as [|c l IH]; trivial.
  cbn [app nextIsCased]. now rewrite IH.
Qed.

(** The code points before matter to lower-casing only through the
    Final_Sigma test. *)
Lemma lower_context (b b' cps : list Z) :
  (forall l, nextIsCased U (l ++ b) = nextIsCased U (l ++ b')) ->
  lowerCodePoints U b cps = lowerCodePoints U b' cps.
Proof.
  revert b b'. induction cps as [|c cps IH]; intros b b' H; trivial.
  cbn [lowerCodePoints]. unfold finalSigma.
  pose proof (H []) as H0. cbn [app] in H0. rewrite H0. f_equal. apply IH. intros l.
  change (c :: b) with ([c] ++ b). change (c :: b') with ([c] ++ b').
  rewrite !app_assoc. apply H.
Qed.

Lemma blank_is_not_sigma (c : Z) : isWhiteSpace c = true -> c <> 931.
Proof. intros H ->. vm_compute in H. discriminate. Qed.

Lemma lower_blanks (b W : list Z) :
  blanksUncased U -> forallb isWhiteSpace W = true -> lowerCodePoints U b W = W.
Proof.
  intros HU HW. apply lowerCodePoints_kept. apply blanks_Forall in HW.
  eapply Forall_impl; [| exact HW]. intros c Hc. cbn beta in *.
  split; [exact (blank_lower U HU c Hc) | exact (blank_is_not_sigma c Hc)].
Qed.

Lemma blanks_are_uncased (W : list Z) :
  blanksUncased U -> forallb isWhiteSpace W = true ->
  Forall (fun c => cased U c = false) W.
Proof.
  intros HU HW. apply blanks_Forall in HW.
  eapply Forall_impl; [| exact HW]. intros c Hc. exact (blank_uncased U HU c Hc).
Qed.

Lemma lower_blank_suffix (b l W : list Z) :
  blanksUncased U -> forallb isWhiteSpace W = true ->
  lowerCodePoints U b (l ++ W) = lowerCodePoints U b l ++ W.
Proof.
  intros HU HW. revert b. induction l as [|c l IH]; intros b.
  - cbn [app lowerCodePoints]. now apply lower_blanks.
  - cbn [app lowerCodePoints]. unfold finalSigma.
    rewrite (nextIsCased_uncased l W (blanks_are_uncased W HU HW)).
    now rewrite IH, app_assoc.
Qed.

Lemma lower_blank_prefix (b W l : list Z) :
  blanksUncased U -> forallb isWhiteSpace W = true ->
  Forall (fun c => cased U c = false) b ->
  lowerCodePoints U b (W ++ l) = W ++ lowerCodePoints U [] l.
Proof.
  intros HU HW. revert b. induction W as [|c W IH]; intros b Hb.
  - cbn [app]. apply lower_context. intros l0.
    now rewrite (nextIsCased_uncased l0 b Hb), app_nil_r.
  - cbn [forallb] in HW. apply andb_true_iff in HW as [Hc HW].
    cbn [app lowerCodePoints].
    replace (c =? 931) with false
      by (symmetry; apply Z.eqb_neq; exact (blank_is_not_sigma c Hc)).
    cbn [andb]. rewrite (blank_lower U HU c Hc). cbn [app]. f_equal.
    apply (IH HW). constructor; [exact (blank_uncased U HU c Hc) | exact Hb].
Qed.

(** Lower-casing keeps the white space around a text and lower-cases the
    text as if it stood alone. *)
Lemma toLowerCase_margins (pre s post : jsstring) :
  blanksUncased U ->
  forallb isWhiteSpace pre = true -> forallb isWhiteSpace post = true ->
  toLowerCase U (pre ++ s ++ post) = pre ++ toLowerCase U s ++ post.
Proof.
  intros HU Hpre Hpost. unfold toLowerCase.
  rewrite (codePoints_blank_prefix pre _ Hpre), (codePoints_blank_suffix s post Hpost).
  rewrite (lower_blank_prefix [] pre _ HU Hpre) by constructor.
  rewrite (lower_blank_suffix [] _ post HU Hpost).
  rewrite !codeUnits_app.
  now rewrite (codeUnits_blanks pre Hpre), (codeUnits_blanks post Hpost).
Qed.

(** X13: normalization forgets the case of the letters and the white space
    around the message: on an engine whose tables give white space no case
    and whose lower-case mappings yield lower-case code points, a message,
    the same message lower-cased, and the same message with blanks, tabs or
    line breaks put before or after it all normalize to the same text, so
    they get the same intent and the same directive flags. *)
Theorem normalization_forgets_margins_and_case (pre m post : jsstring) :
  blanksUncased U -> lowerStable U ->
  forallb isWhiteSpace pre = true -> forallb isWhiteSpace post = true ->
  normalize (pre ++ m ++ post) = normalize m
  /\ normalize (toLowerCase U m) = normalize m
  /\ intentOf (normalize (pre ++ toLowerCase U m ++ post)) = intentOf (normalize m)
  /\ wantsShort (normalize (pre ++ toLowerCase U m ++ post)) = wantsShort (normalize m)
  /\ wantsOneLine (normalize (pre ++ toLowerCase U m ++ post)) = wantsOneLine (normalize m).
Proof.
  intros HB HS Hpre Hpost.
  assert (Hm : forall s, normalize (pre ++ s ++ post) = normalize s).
  { intros s. unfold normalize. rewrite (toLowerCase_margins pre s post HB Hpre Hpost).
    now apply trim_blank_margins. }
  assert (Hl : normalize (toLowerCase U m) = normalize m).
  { unfold normalize. now rewrite toLowerCase_twice. }
  split; [apply Hm | split; [exact Hl |]].
  rewrite Hm, Hl. repeat split.
Qed.

End Handler.
(* ================================================================= *)
(** ** The excerpt of the Unicode tables *)

Ltac pick_case :=
  first [ solve [repeat split; first [reflexivity | lia]]
        | left; pick_case
        | right; pick_case ].

Lemma excerptLower_cases (c : Z) :
  (65 <= c <= 90 /\ excerptLower c = [c + 32])
  \/ (192 <= c <= 222 /\ c <> 215 /\ excerptLower c = [c + 32])
  \/ (c = 304 /\ excerptLower c = [105; 775])
  \/ (913 <= c <= 939 /\ c <> 930 /\ excerptLower c = [c + 32])
  \/ (c = 8490 /\ excerptLower c = [107])
  \/ (66560 <= c <= 66599 /\ excerptLower c = [c + 40])
  \/ ((c < 65 \/ 90 < c < 192 \/ c = 215 \/ 222 < c < 304 \/ 304 < c < 913
       \/ c = 930 \/ 939 < c < 8490 \/ 8490 < c < 66560 \/ 66599 < c)
      /\ excerptLower c = [c]).
Proof. unfold excerptLower. split_tests; pick_case. Qed.

Lemma excerptLower_other (d : Z) :
  d < 65 \/ 90 < d < 192 \/ d = 215 \/ 222 < d < 304 \/ 304 < d < 913
  \/ d = 930 \/ 939 < d < 8490 \/ 8490 < d < 66560 \/ 66599 < d ->
  excerptLower d = [d].
Proof.
  intros H.
  destruct (excerptLower_cases d)
    as [[? _] | [[? [? _]] | [[? _] | [[? [? _]] | [[? _] | [[? _] | [_ E]]]]]]];
    try lia. exact E.
Qed.

Lemma excerpt_basicLatin : basicLatin unicodeExcerpt.
Proof.
  constructor; cbn [lowerOf upperOf cased caseIgnorable unicodeExcerpt].
  - intros c Hc. unfold lowerAscii.
    destruct (excerptLower_cases c)
      as [[? E] | [[? _] | [[? _] | [[? _] | [[? _] | [[? _] | [? E]]]]]]];
      try lia; rewrite E; split_tests; first [reflexivity | lia].
  - intros c Hc. unfold excerptUpper, upperAscii. split_tests; first [reflexivity | lia].
  - intros c Hc. split.
    + unfold excerptCased. rewrite Hc. reflexivity.
    + assert (Hb : 65 <= c <= 122).
      { unfold isAsciiLetter in Hc. apply orb_true_iff in Hc as [Hc | Hc];
          apply andb_true_iff in Hc as [H1 H2];
          apply Z.leb_le in H1; apply Z.leb_le in H2; lia. }
      assert (H94 : c <> 94 /\ c <> 96).
      { unfold isAsciiLetter in Hc. apply orb_true_iff in Hc as [Hc | Hc];
          apply andb_true_iff in Hc as [H1 H2];
          apply Z.leb_le in H1; apply Z.leb_le in H2; lia. }
      unfold excerptIgnorable.
      repeat match goal with
      | |- context [c =? ?b] =>
        replace (c =? b) with false by (symmetry; apply Z.eqb_neq; lia)
      end.
      replace (768 <=? c) with false by (symmetry; apply Z.leb_gt; lia).
      reflexivity.
Qed.

Lemma excerpt_lowerStable : lowerStable unicodeExcerpt.
Proof.
  constructor; cbn [lowerOf unicodeExcerpt]; try reflexivity.
  - intros c d Hd.
    destruct (excerptLower_cases c)
      as [[? E] | [[? [? E]] | [[? E] | [[? [? E]] | [[? E] | [[? E] | [? E]]]]]]];
      rewrite E in Hd; cbn [In] in Hd;
      repeat match goal with H : _ \/ _ |- _ => destruct H end;
      try contradiction; subst d; try exact E;
      apply excerptLower_other; lia.
  - intros c.
    destruct (excerptLower_cases c)
      as [[? E] | [[? [? E]] | [[? E] | [[? [? E]] | [[? E] | [[? E] | [? E]]]]]]];
      rewrite E; discriminate.
  - intros c d Hd Hs.
    assert (Hr : 55296 <= d <= 57343).
    { apply orb_true_iff in Hs as [Hs | Hs]; apply surrogate_bounds in Hs; lia. }
    destruct (excerptLower_cases c)
      as [[? E] | [[? [? E]] | [[? E] | [[? [? E]] | [[? E] | [[? E] | [? E]]]]]]];
      rewrite E in Hd; cbn [In] in Hd;
      repeat match goal with H : _ \/ _ |- _ => destruct H end;
      try contradiction; try lia. exact E.
Qed.

Lemma blank_values (c : Z) :
  isWhiteSpace c = true ->
  9 <= c <= 13 \/ c = 32 \/ c = 160 \/ c = 5760 \/ 8192 <= c <= 8202
  \/ 8232 <= c <= 8233 \/ c = 8239 \/ c = 8287 \/ c = 12288 \/ c = 65279.
Proof.
  unfold isWhiteSpace. intros H.
  repeat (apply orb_true_iff in H; destruct H as [H | H]);
    try (apply andb_true_iff in H as [H1 H2]; apply Z.leb_le in H1; apply Z.leb_le in H2);
    try (apply Z.eqb_eq in H); lia.
Qed.

Lemma excerpt_blanksUncased : blanksUncased unicodeExcerpt.
Proof.
  constructor; cbn [lowerOf cased unicodeExcerpt]; intros c Hc;
    apply blank_values in Hc.
  - apply excerptLower_other. lia.
  - unfold excerptCased, isAsciiLetter.
    repeat match goal with
    | |- context [c =? ?b] =>
      replace (c =? b) with false by (symmetry; apply Z.eqb_neq; lia)
    end.
    assert (Hcases : c <= 32 \/ c = 160 \/ 5760 <= c <= 12288 \/ c = 65279) by lia.
    destruct Hcases as [H | [H | [H | H]]].
    + replace (192 <=? c) with false by (symmetry; apply Z.leb_gt; lia).
      replace (913 <=? c) with false by (symmetry; apply Z.leb_gt; lia).
      replace (66560 <=? c) with false by (symmetry; apply Z.leb_gt; lia).
      replace (65 <=? c) with false by (symmetry; apply Z.leb_gt; lia).
      replace (97 <=? c) with false by (symmetry; apply Z.leb_gt; lia).
      reflexivity.
    + subst c. reflexivity.
    + replace (c <=? 90) with false by (symmetry; apply Z.leb_gt; lia).
      replace (c <=? 122) with false by (symmetry; apply Z.leb_gt; lia).
      replace (c <=? 255) with false by (symmetry; apply Z.leb_gt; lia).
      replace (c <=? 969) with false by (symmetry; apply Z.leb_gt; lia).
      replace (66560 <=? c) with false by (symmetry; apply Z.leb_gt; lia).
      rewrite !andb_false_r. reflexivity.
    + subst c. reflexivity.
Qed.

(** The excerpt lower-cases as engines do beyond Latin-1: the Kelvin sign
    becomes k, I with dot above becomes i and a combining dot, capital
    sigma depends on its place in the word, supplementary letters are
    mapped as pairs.  "OK" ending in a Kelvin sign is an appreciation;
    "OK" followed by I with dot above is not. *)
Example case_mapping_beyond_latin :
  normalize unicodeExcerpt kelvinMessage = js "ok"
  /\ intentOf (normalize unicodeExcerpt kelvinMessage) = Appreciation
  /\ normalize unicodeExcerpt dottedOkMessage = js "oki" ++ [775]
  /\ intentOf (normalize unicodeExcerpt dottedOkMessage) = CareerAdvice
  /\ intentOf (normalize unicodeExcerpt dottedGurinchMessage) = DefinitionRequest
  /\ toLowerCase unicodeExcerpt (js "ΟΔΟΣ ΣΑΣ") = js "οδος σας"
  /\ toLowerCase unicodeExcerpt (js "𐐀𐐁") = js "𐐨𐐩".
Proof. repeat split; vm_compute; reflexivity. Qed.

(* ================================================================= *)
(** ** The handler on sample requests *)

Ltac evaluated := vm_compute; reflexivity.

Ltac reaches := split; [evaluated | split; [evaluated | split; evaluated]].

Example trim_lower : normalize unicodeExcerpt (js "  Hello World ") = js "hello world".
Proof. evaluated. Qed.

Lemma appreciation_short_circuits_witness :
  intentOf (normalize unicodeExcerpt thanksMessage) = Appreciation
  /\ (exists reply,
        In reply quickReplies
        /\ run unicodeExcerpt sampleWorld (requestOf thanksMessage None)
           = (inr (okReply reply), [CallRandom]))
  /\ engineCalls (snd (run unicodeExcerpt sampleWorld (requestOf thanksMessage None))) = 0%nat
  /\ profileCalls (snd (run unicodeExcerpt sampleWorld (requestOf thanksMessage None))) = 0%nat.
Proof.
  apply (appreciation_short_circuits unicodeExcerpt sampleWorld (requestOf thanksMessage None)
           (bodyOf thanksMessage None) thanksMessage (js "thanks")).
  - reflexivity.
  - reflexivity.
  - left. reflexivity.
  - exists [], (js ", explain recursion"). split; [evaluated | split; evaluated].
  - split; [discriminate | reflexivity].
Defined.

(** The sample message of C1 also holds a definition phrase. *)
Example thanks_has_definition_phrase :
  isDefinitionRequest (normalize unicodeExcerpt thanksMessage) = true.
Proof. evaluated. Qed.

Lemma context_precedence_witness :
  exists ctx tail,
    In (CallGenerateContent
          (chatHistory None
             ++ [userTurn (ctx ++ newline ++ js "User: " ++ teluguMessage ++ tail)]))
       (snd (run unicodeExcerpt sampleWorld (requestOf teluguMessage None)))
    /\ (isTelugu teluguMessage = true ->
        intentOf (normalize unicodeExcerpt teluguMessage) = DefinitionRequest ->
        ctx = js "The user is asking for a definition/explanation in Telugu."
        /\ tail = (if wantsShort (normalize unicodeExcerpt teluguMessage) then briefLine else [])
                    ++ (if wantsOneLine (normalize unicodeExcerpt teluguMessage)
                        then oneSentenceLine else []))
    /\ (isTelugu teluguMessage = false ->
        intentOf (normalize unicodeExcerpt teluguMessage) = DefinitionRequest ->
        ctx = js "The user is asking for a definition/explanation in English.")
    /\ (intentOf (normalize unicodeExcerpt teluguMessage) <> DefinitionRequest ->
        ctx = js "The user is asking for career advice. They have the following skills: "
                ++ userSkills sampleDoc ++ js ".").
Proof.
  apply (context_precedence unicodeExcerpt sampleWorld (requestOf teluguMessage None)
           (bodyOf teluguMessage None) teluguMessage (js "u1") sampleDoc).
  - reaches.
  - reflexivity.
Defined.

(** The Telugu sample of C2: Telugu script, "cheppu", and the prompt the
    engine receives. *)
Example telugu_definition_prompt :
  isTelugu teluguMessage = true
  /\ intentOf (normalize unicodeExcerpt teluguMessage) = DefinitionRequest
  /\ promptFor unicodeExcerpt teluguMessage sampleDoc =
     js "The user is asking for a definition/explanation in Telugu."
       ++ newline ++ js "User: " ++ teluguMessage.
Proof. split; [evaluated | split; evaluated]. Qed.

Lemma final_message_layout_witness :
  let m := allDirectivesMessage in
  let lowerMsg := normalize unicodeExcerpt m in
  let definition := isDefinitionRequest lowerMsg in
  let final :=
    systemContext (isTelugu m) definition (userSkills sampleDoc)
      ++ newline ++ js "User: " ++ m
      ++ (if wantsShort lowerMsg then briefLine else [])
      ++ (if wantsOneLine lowerMsg then oneSentenceLine else [])
      ++ (if isTelugu m && negb definition then teluguLine else []) in
  (definition = true <-> intentOf lowerMsg = DefinitionRequest)
  /\ exists rest,
      snd (run unicodeExcerpt sampleWorld (requestOf m (Some sampleHistory))) =
      CallFindById (js "u1")
        :: CallGenerateContent (chatHistory (Some sampleHistory) ++ [userTurn final])
        :: rest.
Proof.
  apply (final_message_layout unicodeExcerpt sampleWorld
           (requestOf allDirectivesMessage (Some sampleHistory))
           (bodyOf allDirectivesMessage (Some sampleHistory))
           allDirectivesMessage (js "u1") sampleDoc).
  - reaches.
  - reflexivity.
Defined.

(** All three lines can be appended at once, and none at all. *)
Example three_lines_appended :
  promptFor unicodeExcerpt allDirectivesMessage None =
  js "The user is asking for career advice. They have the following skills: None."
    ++ newline ++ js "User: " ++ allDirectivesMessage
    ++ briefLine ++ oneSentenceLine ++ teluguLine.
Proof. vm_compute. reflexivity. Qed.

Example no_line_appended :
  promptFor unicodeExcerpt careerMessage None =
  js "The user is asking for career advice. They have the following skills: None."
    ++ newline ++ js "User: " ++ careerMessage.
Proof. vm_compute. reflexivity. Qed.

Lemma conversation_keeps_history_witness :
  exists contents rest,
    snd (run unicodeExcerpt sampleWorld (requestOf careerMessage (Some sampleHistory)))
    = CallFindById (js "u1") :: CallGenerateContent contents :: rest
    /\ List.length contents = S (List.length sampleHistory)
    /\ nth_error contents (List.length sampleHistory)
       = Some {| c_role := js "user";
                 parts := [{| text := promptFor unicodeExcerpt careerMessage sampleDoc |}] |}
    /\ (forall i t,
          nth_error sampleHistory i = Some t ->
          nth_error contents i
          = Some {| c_role := role t; parts := [{| text := content t |}] |}).
Proof.
  apply (conversation_keeps_history unicodeExcerpt sampleWorld
           (requestOf careerMessage (Some sampleHistory))
           (bodyOf careerMessage (Some sampleHistory))
           careerMessage (js "u1") sampleDoc).
  - reaches.
  - reflexivity.
Defined.

(** A missing history counts as no prior turn; a repeated turn is kept. *)
Example conversation_without_history :
  List.length (conversationFor unicodeExcerpt None careerMessage None) = 1%nat
  /\ List.length (conversationFor unicodeExcerpt (Some sampleHistory) careerMessage None) = 4%nat.
Proof. split; evaluated. Qed.

Lemma engine_failure_replies_witness :
  fst (run unicodeExcerpt engineDownWorld (requestOf explainMessage None)) = inr apologyReply
  /\ fst (run unicodeExcerpt emptyAnswerWorld (requestOf explainMessage None)) = inr (okReply fallbackText).
Proof.
  split.
  - apply (engine_failure_replies unicodeExcerpt engineDownWorld (requestOf explainMessage None)
             (bodyOf explainMessage None) explainMessage (js "u1") sampleDoc
             ltac:(reaches) eq_refl)
      with (e := Failure (js "503")).
    reflexivity.
  - apply (engine_failure_replies unicodeExcerpt emptyAnswerWorld (requestOf explainMessage None)
             (bodyOf explainMessage None) explainMessage (js "u1") None
             ltac:(reaches) eq_refl)
      with (result := noCandidates).
    + reflexivity.
    + left. reflexivity.
Defined.

Lemma profile_lookup_comes_first_witness :
  intentOf (normalize unicodeExcerpt explainMessage) = DefinitionRequest
  /\ profileCalls (snd (run unicodeExcerpt storeDownWorld (requestOf explainMessage None))) = 1%nat
  /\ run unicodeExcerpt storeDownWorld (requestOf explainMessage None)
     = (inr apologyReply, [CallFindById (js "u1"); CallConsoleError]).
Proof.
  destruct (profile_lookup_comes_first unicodeExcerpt storeDownWorld (requestOf explainMessage None)
              (bodyOf explainMessage None) explainMessage (js "u1")
              ltac:(reaches)) as (H1 & _ & H3).
  split; [evaluated |]. split; [exact H1 |].
  exact (proj1 (H3 (Failure (js "ECONNREFUSED")) eq_refl)).
Defined.

Example intents_of_samples :
  intentOf (normalize unicodeExcerpt (js "great job")) = Appreciation
  /\ intentOf (normalize unicodeExcerpt (js "OK")) = Appreciation
  /\ intentOf (normalize unicodeExcerpt (js "tell me about docker")) = DefinitionRequest
  /\ intentOf (normalize unicodeExcerpt (js "docker gurinchi")) = DefinitionRequest
  /\ intentOf (normalize unicodeExcerpt careerMessage) = CareerAdvice
  /\ intentOf (normalize unicodeExcerpt (js "what is a good career")) = Appreciation.
Proof. repeat split; vm_compute; reflexivity. Qed.

(** The prompt echoes the message as it was typed. *)
Example raw_text_is_echoed :
  normalize unicodeExcerpt (js "  Explain RECURSION ") = js "explain recursion"
  /\ promptFor unicodeExcerpt (js "  Explain RECURSION ") None =
     js "The user is asking for a definition/explanation in English."
       ++ newline ++ js "User: " ++ js "  Explain RECURSION ".
Proof. split; vm_compute; reflexivity. Qed.

Example short_and_one_line :
  wantsShort (normalize unicodeExcerpt (js "Tell me in short about machine learning, in one line")) = true
  /\ wantsOneLine (normalize unicodeExcerpt (js "Tell me in short about machine learning, in one line"))
     = true.
Proof. split; vm_compute; reflexivity. Qed.

Lemma skills_rendering_witness :
  exists tail,
    promptFor unicodeExcerpt careerMessage None =
    (js "The user is asking for career advice. They have the following skills: "
       ++ userSkills None ++ js ".")
      ++ newline ++ js "User: " ++ careerMessage ++ tail.
Proof.
  apply (proj2 (proj2 (proj2 (proj2 (proj2 (proj2 (proj2
           (skills_rendering unicodeExcerpt)))))))
           careerMessage None).
  vm_compute. reflexivity.
Defined.

(** With no profile document the request is still answered. *)
Example career_advice_without_skills :
  run unicodeExcerpt sampleWorld
      {| body := Some (bodyOf careerMessage None); user := Some (js "u1") |}
  = (inr (okReply (js "Recursion is self-reference.")),
     [CallFindById (js "u1");
      CallGenerateContent (conversationFor unicodeExcerpt None careerMessage sampleDoc)])
  /\ fst (run unicodeExcerpt emptyAnswerWorld (requestOf careerMessage None)) = inr (okReply fallbackText)
  /\ promptFor unicodeExcerpt careerMessage None =
     js "The user is asking for career advice. They have the following skills: None."
       ++ newline ++ js "User: " ++ careerMessage.
Proof.
  split; [vm_compute; reflexivity |].
  split; vm_compute; reflexivity.
Qed.

Lemma malformed_requests_witness :
  run unicodeExcerpt sampleWorld {| body := None; user := Some (js "u1") |} = (inl TypeError, [])
  /\ run unicodeExcerpt sampleWorld
         {| body := Some {| message := None; history := None |}; user := Some (js "u1") |}
     = (inr apologyReply, [CallConsoleError])
  /\ run unicodeExcerpt sampleWorld {| body := Some (bodyOf explainMessage None); user := None |}
     = (inr apologyReply, [CallConsoleError]).
Proof.
  split; [| split].
  - apply (proj1 (malformed_requests unicodeExcerpt sampleWorld _)). reflexivity.
  - apply (proj1 (proj2 (malformed_requests unicodeExcerpt sampleWorld _))
             {| message := None; history := None |}); reflexivity.
  - apply (proj2 (proj2 (malformed_requests unicodeExcerpt sampleWorld _))
             (bodyOf explainMessage None) explainMessage); reflexivity.
Defined.

Lemma call_discipline_witness :
  exists id c rest,
    snd (run unicodeExcerpt engineDownWorld (requestOf explainMessage None))
    = CallFindById id :: CallGenerateContent c :: rest.
Proof.
  apply (proj1 (proj2 (proj2
           (call_discipline unicodeExcerpt engineDownWorld (requestOf explainMessage None))))).
  vm_compute. reflexivity.
Defined.

Lemma first_candidate_decides_witness :
  fst (run unicodeExcerpt sampleWorld (requestOf explainMessage None))
  = inr (okReply (trim (32 :: js "Recursion is self-reference. "))).
Proof.
  assert (Hr : reachesLookup unicodeExcerpt (requestOf explainMessage None) (bodyOf explainMessage None)
                 explainMessage (js "u1")) by reaches.
  assert (Hg : generateContent sampleWorld (conversationFor unicodeExcerpt None explainMessage sampleDoc)
               = Resolved (resultWith (Some (32 :: js "Recursion is self-reference. "))
                             [] []))
    by (vm_compute; reflexivity).
  exact (proj1 (proj1 (first_candidate_decides unicodeExcerpt sampleWorld
                         (requestOf explainMessage None) (bodyOf explainMessage None)
                         explainMessage (js "u1") sampleDoc _ [] [] Hr eq_refl Hg)
                  32 (js "Recursion is self-reference. ") eq_refl)).
Defined.

Lemma definition_request_ignores_profile_witness :
  conversationFor unicodeExcerpt None explainMessage sampleDoc = conversationFor unicodeExcerpt None explainMessage None
  /\ run unicodeExcerpt sampleWorld (requestOf explainMessage None)
     = run unicodeExcerpt (worldWithDoc None) (requestOf explainMessage None).
Proof.
  apply (definition_request_ignores_profile unicodeExcerpt sampleWorld (worldWithDoc None)
           (requestOf explainMessage None) (bodyOf explainMessage None)
           explainMessage (js "u1") sampleDoc None).
  - reaches.
  - vm_compute. reflexivity.
  - reflexivity.
  - reflexivity.
  - intros c. reflexivity.
Defined.

(** A career-advice prompt does depend on the document. *)
Example career_prompt_uses_profile :
  promptFor unicodeExcerpt careerMessage sampleDoc <> promptFor unicodeExcerpt careerMessage None.
Proof. vm_compute. discriminate. Qed.

Lemma reply_by_quarter_witness :
  (randomIndex sampleWorld = 2 <-> 2 * 2 ^ 51 <= Math_random sampleWorld < (2 + 1) * 2 ^ 51)
  /\ (randomIndex sampleWorld = 2 ->
      fst (run unicodeExcerpt sampleWorld (requestOf thanksMessage None))
      = inr {| status := 200; r_role := assistant;
               r_body_content := nth_error quickReplies (Z.to_nat 2) |}).
Proof.
  apply (reply_by_quarter unicodeExcerpt sampleWorld (requestOf thanksMessage None)
           (bodyOf thanksMessage None) thanksMessage 2).
  - reflexivity.
  - reflexivity.
  - vm_compute. reflexivity.
  - split; [discriminate | reflexivity].
  - lia.
Defined.

Lemma telugu_detection_witness :
  isTelugu (js "recursion gurinchi cheppu") = false
  /\ forall doc,
      promptFor unicodeExcerpt (js "recursion gurinchi cheppu") doc =
      (if isDefinitionRequest (normalize unicodeExcerpt (js "recursion gurinchi cheppu"))
       then js "The user is asking for a definition/explanation in English."
       else js "The user is asking for career advice. They have the following skills: "
              ++ userSkills doc ++ js ".")
        ++ newline ++ js "User: " ++ js "recursion gurinchi cheppu"
        ++ (if wantsShort (normalize unicodeExcerpt (js "recursion gurinchi cheppu"))
            then briefLine else [])
        ++ (if wantsOneLine (normalize unicodeExcerpt (js "recursion gurinchi cheppu"))
            then oneSentenceLine else []).
Proof.
  apply (proj2 (telugu_detection unicodeExcerpt (js "recursion gurinchi cheppu"))).
  intros c Hc. left. vm_compute in Hc.
  repeat (destruct Hc as [<- | Hc]; [reflexivity |]). destruct Hc.
Defined.

Lemma intent_classification_witness :
  (intentOf (normalize unicodeExcerpt thanksMessage) = Appreciation
   <-> snd (run unicodeExcerpt sampleWorld (requestOf thanksMessage None)) = [CallRandom])
  /\ (intentOf (js "what is recursion") = DefinitionRequest
      <-> ~ (exists t, In t appreciationTerms /\ wordMatch t (js "what is recursion"))
          /\ ((exists t, In t transliteratedTerms /\ occursIn t (js "what is recursion"))
              \/ (exists t, In t definitionTerms /\ wordMatch t (js "what is recursion"))))
  /\ intentOf (normalize unicodeExcerpt explainMessage) = DefinitionRequest.
Proof.
  split; [| split].
  - apply (proj1 (proj2 (intent_classification unicodeExcerpt)) sampleWorld
             (requestOf thanksMessage None) (bodyOf thanksMessage None) thanksMessage);
      reflexivity.
  - exact (proj1 (proj2 (proj1 (intent_classification unicodeExcerpt)
                           (js "what is recursion")))).
  - exact (proj1 (proj2 (proj2 (intent_classification unicodeExcerpt))
                    excerpt_basicLatin)).
Defined.

Lemma normalization_idempotent_witness :
  normalize unicodeExcerpt (normalize unicodeExcerpt (js "  ΟΔΟΣ Explain RECURSION "))
  = normalize unicodeExcerpt (js "  ΟΔΟΣ Explain RECURSION ")
  /\ (user (requestOf explainMessage None) = None
      \/ exists id,
          user (requestOf explainMessage None) = Some id
          /\ ((exists e, User_findById engineDownWorld id = Rejected e)
              \/ (exists doc e,
                    User_findById engineDownWorld id = Resolved doc
                    /\ generateContent engineDownWorld
                         (conversationFor unicodeExcerpt None explainMessage doc)
                       = Rejected e))).
Proof.
  split.
  - exact (proj1 (normalization_idempotent unicodeExcerpt) excerpt_lowerStable
             (js "  ΟΔΟΣ Explain RECURSION ")).
  - apply (proj1 (proj2 (normalization_idempotent unicodeExcerpt)) engineDownWorld
             (requestOf explainMessage None) (bodyOf explainMessage None) explainMessage).
    + reflexivity.
    + reflexivity.
    + vm_compute. right. right. left. reflexivity.
Defined.

(** C6, as the specification states it, fails: on no engine that
    lower-cases Basic Latin as Unicode does are both flags set, "briefly"
    not holding "short". *)
Lemma briefly_sets_no_brief_flag :
  ~ (exists U,
        basicLatin U
        /\ wantsShort (normalize U brieflyMessage) = true
        /\ wantsOneLine (normalize U brieflyMessage) = true).
Proof.
  intros (U & HU & H & _).
  rewrite (normalize_basic_latin U brieflyMessage HU) in H by (vm_compute; reflexivity).
  vm_compute in H. discriminate.
Qed.

Lemma briefly_directives_witness :
  wantsShort (normalize unicodeExcerpt brieflyMessage) = false
  /\ wantsOneLine (normalize unicodeExcerpt brieflyMessage) = true
  /\ (forall doc,
        promptFor unicodeExcerpt brieflyMessage doc =
        (js "The user is asking for career advice. They have the following skills: "
           ++ userSkills doc ++ js ".")
          ++ newline ++ js "User: " ++ brieflyMessage ++ oneSentenceLine).
Proof. exact (proj1 (briefly_directives unicodeExcerpt) excerpt_basicLatin). Defined.

Lemma normalization_forgets_margins_and_case_witness :
  normalize unicodeExcerpt (js "  " ++ js "Explain Recursion" ++ [10])
  = normalize unicodeExcerpt (js "Explain Recursion")
  /\ intentOf (normalize unicodeExcerpt
                 (js "  " ++ toLowerCase unicodeExcerpt (js "Explain Recursion") ++ [10]))
     = intentOf (normalize unicodeExcerpt (js "Explain Recursion")).
Proof.
  destruct (normalization_forgets_margins_and_case unicodeExcerpt
              (js "  ") (js "Explain Recursion") [10]
              excerpt_blanksUncased excerpt_lowerStable eq_refl eq_refl)
    as (H1 & _ & H3 & _).
  split; assumption.
Defined.
(* ================================================================= *)
(** ** The dashboard: sorting, selection, labels *)

Module DashboardFacts.
Import Dashboard.

Lemma compare_sign (a b : Trend) :
  Qle_bool (compareFn a b) 0 = true <-> (lastDemand b <= lastDemand a)%Q.
Proof. rewrite Qle_bool_iff. unfold compareFn. split; intros H; lra. Qed.

Lemma compare_sign_false (a b : Trend) :
  Qle_bool (compareFn a b) 0 = false -> (lastDemand a < lastDemand b)%Q.
Proof.
  intros H. apply Qnot_le_lt. intros Hle.
  apply compare_sign in Hle. congruence.
Qed.

Lemma insert_perm (x : Trend) (l : list Trend) :
  Permutation (insert compareFn x l) (x :: l).
Proof.
  induction l as [|y r IH]; simpl.
  - apply Permutation_refl.
  - destruct (Qle_bool (compareFn x y) 0).
    + apply Permutation_refl.
    + apply perm_trans with (y :: x :: r).
      * now apply perm_skip.
      * apply perm_swap.
Qed.

Lemma sort_perm (l : list Trend) : Permutation (arraySort compareFn l) l.
Proof.
  induction l as [|x r IH]; simpl.
  - apply perm_nil.
  - apply perm_trans with (x :: arraySort compareFn r).
    + apply insert_perm.
    + now apply perm_skip.
Qed.

Lemma insert_sorted (x : Trend) (l : list Trend) :
  StronglySorted (fun a b => (lastDemand b <= lastDemand a)%Q) l ->
  StronglySorted (fun a b => (lastDemand b <= lastDemand a)%Q) (insert compareFn x l).
Proof.
  induction 1 as [|y r Hs IH Hy]; simpl.
  - constructor; constructor.
  - destruct (Qle_bool (compareFn x y) 0) eqn:E.
    + apply compare_sign in E. constructor.
      * now constructor.
      * constructor; trivial.
        rewrite Forall_forall in *. intros z Hz. specialize (Hy z Hz). lra.
    + apply compare_sign_false in E. constructor; trivial.
      rewrite Forall_forall in *. intros z Hz.
      apply (Permutation_in _ (insert_perm x r)) in Hz.
      destruct Hz as [<- | Hz]; [lra | now apply Hy].
Qed.

Lemma sort_sorted (l : list Trend) :
  StronglySorted (fun a b => (lastDemand b <= lastDemand a)%Q) (arraySort compareFn l).
Proof.
  induction l as [|x r IH]; simpl.
  - constructor.
  - now apply insert_sorted.
Qed.

Lemma insert_keeps_classes (q : Q) (x : Trend) (l : list Trend) :
  filter (fun t => Qeq_bool (lastDemand t) q) (insert compareFn x l)
  = filter (fun t => Qeq_bool (lastDemand t) q) (x :: l).
Proof.
  induction l as [|y r IH]; [reflexivity |].
  cbn [insert]. destruct (Qle_bool (compareFn x y) 0) eqn:E; [reflexivity |].
  apply compare_sign_false in E.
  cbn [filter] in *. rewrite IH.
  destruct (Qeq_bool (lastDemand x) q) eqn:Fx; [| reflexivity].
  destruct (Qeq_bool (lastDemand y) q) eqn:Fy; [| reflexivity].
  apply Qeq_bool_iff in Fx, Fy. lra.
Qed.

Lemma sort_keeps_classes (q : Q) (l : list Trend) :
  filter (fun t => Qeq_bool (lastDemand t) q) (arraySort compareFn l)
  = filter (fun t => Qeq_bool (lastDemand t) q) l.
Proof.
  induction l as [|x r IH]; [reflexivity |].
  cbn [arraySort]. rewrite insert_keeps_classes. cbn [filter]. now rewrite IH.
Qed.

Lemma sort_head (l : list Trend) (t : Trend) (rest : list Trend) :
  arraySort compareFn l = t :: rest ->
  exists pre post,
    l = pre ++ t :: post
    /\ Forall (fun u => (lastDemand u < lastDemand t)%Q) pre
    /\ Forall (fun u => (lastDemand u <= lastDemand t)%Q) post.
Proof.
  revert t rest. induction l as [|x r IH]; intros t rest H; [discriminate |].
  cbn [arraySort] in H.
  destruct (arraySort compareFn r) as [|y s] eqn:Es.
  - assert (r = []) as ->.
    { apply Permutation_nil. rewrite <- Es. apply sort_perm. }
    cbn in H. injection H as <- <-. exists [], []. repeat split; constructor.
  - destruct (IH y s eq_refl) as (pre & post & -> & Hpre & Hpost).
    cbn [insert] in H. destruct (Qle_bool (compareFn x y) 0) eqn:E.
    + injection H as <- <-. apply compare_sign in E.
      exists [], (pre ++ y :: post). repeat split; [constructor |].
      apply Forall_app. split.
      * rewrite Forall_forall in *. intros u Hu. specialize (Hpre u Hu). lra.
      * constructor; [exact E |].
        rewrite Forall_forall in *. intros u Hu. specialize (Hpost u Hu). lra.
    + injection H as <- <-. apply compare_sign_false in E.
      exists (x :: pre), post. repeat split; trivial. now constructor.
Qed.

(** X7: after a fetch that resolves with data, the list behind the select
    is the fetched list stably sorted by latest demand score, highest
    first: it is a permutation of the fetched entries, every entry's latest
    score (0 for an empty history) is at least that of the entries after
    it, and entries with equal latest scores keep their fetched order. *)
Theorem fetched_data_is_sorted (fetched : list Trend) (st : State) :
  let st' := fst (fetchData (Resolved (Some fetched)) st) in
  Permutation (trendData st') fetched
  /\ StronglySorted (fun a b => (lastDemand b <= lastDemand a)%Q) (trendData st')
  /\ (forall q,
        filter (fun t => Qeq_bool (lastDemand t) q) (trendData st')
        = filter (fun t => Qeq_bool (lastDemand t) q) fetched).
Proof.
  cbn. split; [apply sort_perm | split; [apply sort_sorted |]].
  intros q. apply sort_keeps_classes.
Qed.

Example sample_trends_sorted :
  map skill (trendData (fst (fetchData (Resolved (Some sampleTrends)) initialState)))
  = [js "python"; js "rust"; js "go"; js "cobol"].
Proof. vm_compute. reflexivity. Qed.

(** X8: after a fetch that resolves with at least one entry, the selected
    skill is the first fetched entry whose latest demand score is highest
    (every entry fetched before it has a strictly lower one), the loading
    flag is cleared, and the chart data is that entry's history followed by
    its forecast. *)
Theorem top_skill_is_selected (fetched : list Trend) (st : State) :
  fetched <> [] ->
  let st' := fst (fetchData (Resolved (Some fetched)) st) in
  exists t pre post,
    selectedSkill st' = Some t
    /\ fetched = pre ++ t :: post
    /\ Forall (fun u => (lastDemand u < lastDemand t)%Q) pre
    /\ Forall (fun u => (lastDemand u <= lastDemand t)%Q) post
    /\ isLoading st' = false
    /\ chartData st' = history t ++ forecast t.
Proof.
  intros Hne. cbn. unfold chartData. cbn.
  destruct (arraySort compareFn fetched) as [|t rest] eqn:Es.
  - exfalso. apply Hne. apply Permutation_nil. rewrite <- Es. apply sort_perm.
  - destruct (sort_head fetched t rest Es) as (pre & post & H1 & H2 & H3).
    exists t, pre, post. repeat split; trivial.
Qed.

Lemma top_skill_is_selected_witness :
  exists t pre post,
    selectedSkill (fst (fetchData (Resolved (Some sampleTrends)) initialState)) = Some t
    /\ sampleTrends = pre ++ t :: post
    /\ Forall (fun u => (lastDemand u < lastDemand t)%Q) pre
    /\ Forall (fun u => (lastDemand u <= lastDemand t)%Q) post
    /\ isLoading (fst (fetchData (Resolved (Some sampleTrends)) initialState)) = false
    /\ chartData (fst (fetchData (Resolved (Some sampleTrends)) initialState))
       = history t ++ forecast t.
Proof.
  apply (top_skill_is_selected sampleTrends initialState). discriminate.
Defined.

(** X9: whatever the fetch settles to, the loading flag is cleared and the
    loading card is no longer rendered.  When the fetch rejects or its
    response has no data, the error is logged and the list and the
    selection are left as they were, so that from the initial state the
    dashboard shows an empty select and no chart; when it resolves with an
    empty list, nothing is logged and the selection is left as it was. *)
Theorem fetch_always_ends_loading
        (U : CaseData) (resp : outcome (option (list Trend))) (st : State) :
  isLoading (fst (fetchData resp st)) = false
  /\ render U (fst (fetchData resp st)) <> LoadingCard
  /\ ((exists e, resp = Rejected e) \/ resp = Resolved None ->
      fetchData resp st
      = ({| trendData := trendData st; isLoading := false;
            selectedSkill := selectedSkill st |}, true)
      /\ render U (fst (fetchData resp initialState)) = DashboardCard [] [] None)
  /\ (resp = Resolved (Some []) ->
      fetchData resp st
      = ({| trendData := []; isLoading := false; selectedSkill := selectedSkill st |},
         false)).
Proof.
  split; [| split; [| split]].
  - destruct resp as [[data |] | e]; reflexivity.
  - unfold render. destruct resp as [[data |] | e]; discriminate.
  - intros [[e ->] | ->]; split; reflexivity.
  - intros ->. reflexivity.
Qed.

Lemma fetch_always_ends_loading_witness :
  fetchData (Rejected (Failure (js "Network Error"))) initialState
  = ({| trendData := []; isLoading := false; selectedSkill := None |}, true)
  /\ render unicodeExcerpt
       (fst (fetchData (Rejected (Failure (js "Network Error"))) initialState))
     = DashboardCard [] [] None.
Proof.
  apply (proj1 (proj2 (proj2 (fetch_always_ends_loading unicodeExcerpt
                                (Rejected (Failure (js "Network Error"))) initialState)))).
  left. now exists (Failure (js "Network Error")).
Defined.

Lemma strictEq_eq (a b : jsstring) : strictEq a b = true <-> a = b.
Proof.
  revert b. induction a as [|x a IH]; intros [|y b]; simpl;
    try (split; [discriminate | discriminate]); [split; reflexivity |].
  rewrite andb_true_iff, Z.eqb_eq, IH. split.
  - now intros [-> ->].
  - intros H. injection H as -> ->. auto.
Qed.

Lemma find_first (v : jsstring) (l : list Trend) (t : Trend) :
  find (fun u => strictEq (skill u) v) l = Some t ->
  exists pre post,
    l = pre ++ t :: post /\ skill t = v /\ Forall (fun u => skill u <> v) pre.
Proof.
  induction l as [|x r IH]; [discriminate |]. cbn [find].
  destruct (strictEq (skill x) v) eqn:E.
  - intros H. injection H as <-. apply strictEq_eq in E.
    exists [], r. repeat split; trivial.
  - intros H. destruct (IH H) as (pre & post & -> & Hs & Hpre).
    exists (x :: pre), post. repeat split; trivial. constructor; trivial.
    intros Hx. apply strictEq_eq in Hx. congruence.
Qed.

Lemma find_listed (v : jsstring) (l : list Trend) (t : Trend) :
  In t l -> skill t = v ->
  exists t', find (fun u => strictEq (skill u) v) l = Some t'.
Proof.
  intros Hin Hs. destruct (find (fun u => strictEq (skill u) v) l) as [t' |] eqn:E.
  - now exists t'.
  - exfalso. pose proof (find_none _ _ E t Hin) as Hn. cbn in Hn.
    apply strictEq_eq in Hs. congruence.
Qed.

Lemma unique_by_skill (l : list Trend) (t t' : Trend) :
  NoDup (map skill l) -> In t l -> In t' l -> skill t' = skill t -> t' = t.
Proof.
  induction l as [|x r IH]; [intros _ [] |]. cbn [map].
  intros Hnd Ht Ht' Hs. inversion Hnd as [|? ? Hx Hr]; subst.
  destruct Ht as [-> | Ht], Ht' as [-> | Ht']; trivial.
  - exfalso. apply Hx. rewrite <- Hs. now apply in_map.
  - exfalso. apply Hx. rewrite Hs. now apply in_map.
  - now apply IH.
Qed.

(** X10: choosing in the select the value of a listed entry selects the
    first listed entry with that skill name, and the select then shows
    that value; when the names are distinct it is the entry itself.
    Choosing a value no entry has clears the selection: the chart data
    empties and the select value becomes the empty string.  The list and
    the loading flag are not touched. *)
Theorem select_round_trip (st : State) :
  (forall t,
      In t (trendData st) ->
      exists t' pre post,
        selectedSkill (onChange (skill t) st) = Some t'
        /\ trendData st = pre ++ t' :: post
        /\ skill t' = skill t
        /\ Forall (fun u => skill u <> skill t) pre
        /\ selectValue (onChange (skill t) st) = skill t
        /\ (NoDup (map skill (trendData st)) -> t' = t))
  /\ (forall v,
        Forall (fun u => skill u <> v) (trendData st) ->
        selectedSkill (onChange v st) = None
        /\ chartData (onChange v st) = []
        /\ selectValue (onChange v st) = [])
  /\ (forall v,
        trendData (onChange v st) = trendData st
        /\ isLoading (onChange v st) = isLoading st).
Proof.
  split; [| split].
  - intros t Hin.
    destruct (find_listed (skill t) (trendData st) t Hin eq_refl) as [t' Hf].
    destruct (find_first _ _ _ Hf) as (pre & post & Hl & Hs & Hpre).
    exists t', pre, post. unfold selectValue, onChange. cbn. rewrite Hf.
    repeat split; trivial.
    intros Hnd. apply (unique_by_skill (trendData st)); trivial.
    rewrite Hl. apply in_or_app. right. now left.
  - intros v Hall. unfold chartData, selectValue, onChange. cbn.
    destruct (find (fun t => strictEq (skill t) v) (trendData st)) as [t |] eqn:E.
    + exfalso. apply find_some in E as [Hin Hs]. apply strictEq_eq in Hs.
      rewrite Forall_forall in Hall. exact (Hall t Hin Hs).
    + repeat split.
  - intros v. split; reflexivity.
Qed.

Lemma select_round_trip_witness :
  exists t' pre post,
    selectedSkill (onChange (js "go") (fst (fetchData (Resolved (Some sampleTrends))
                                              initialState))) = Some t'
    /\ arraySort compareFn sampleTrends = pre ++ t' :: post
    /\ skill t' = js "go".
Proof.
  pose (st := fst (fetchData (Resolved (Some sampleTrends)) initialState)).
  pose (t := {| skill := js "go";
                history := [point 2023 (9 # 10); point 2024 (8 # 10)];
                forecast := [] |}).
  assert (Hin : In t (trendData st)) by (vm_compute; right; right; left; reflexivity).
  destruct (proj1 (select_round_trip st) t Hin)
    as (t' & pre & post & H1 & H2 & H3 & _).
  exists t', pre, post. repeat split; assumption.
Defined.

Lemma nextIsCased_last (U : CaseData) (x y : Z) (l : list Z) :
  caseIgnorable U x = caseIgnorable U y -> cased U x = cased U y ->
  nextIsCased U (l ++ [x]) = nextIsCased U (l ++ [y]).
Proof.
  intros Hi Hc. induction l as [|c l IH]; cbn [app nextIsCased].
  - now rewrite Hi, Hc.
  - now rewrite IH.
Qed.

Lemma upper_then_lower_ascii (c : Z) :
  0 <= c < 128 ->
  lowerAscii (upperAscii c) = lowerAscii c
  /\ 0 <= upperAscii c < 128
  /\ (upperAscii c = c
      \/ (isAsciiLetter c = true /\ isAsciiLetter (upperAscii c) = true)).
Proof.
  intros Hc. unfold lowerAscii, upperAscii, isAsciiLetter.
  destruct (Z.leb_spec 97 c), (Z.leb_spec c 122); cbn [andb];
    split_tests; repeat split; try lia; auto.
Qed.

(** X11: the label of an option is the skill name with its first character
    upper-cased and the rest untouched: for a name that starts with a Basic
    Latin character the label differs from the name at most in the case of
    that character, it has the same length, and lower-casing it gives what
    lower-casing the name gives; the label of an empty name is empty. *)
Theorem option_label_capitalizes (U : CaseData) (t : Trend) :
  (skill t = [] -> optionLabel U t = [])
  /\ (forall c r,
        skill t = c :: r -> 0 <= c < 128 -> basicLatin U ->
        optionLabel U t = (if (97 <=? c) && (c <=? 122) then c - 32 else c) :: r
        /\ List.length (optionLabel U t) = List.length (skill t)
        /\ toLowerCase U (optionLabel U t) = toLowerCase U (skill t)).
Proof.
  split.
  - unfold optionLabel. intros ->. reflexivity.
  - intros c r Hs Hc HU.
    destruct (upper_then_lower_ascii c Hc) as (Hlow & Hup & Hsame).
    assert (Hlabel : optionLabel U t = upperAscii c :: r).
    { unfold optionLabel, toUpperCase. rewrite Hs.
      cbn [charAt0 slice1 codePoints flat_map]. rewrite (ascii_upper U HU c Hc).
      cbn [app]. rewrite codeUnits_plain; [reflexivity |].
      constructor; [lia | constructor]. }
    rewrite Hlabel, Hs. split; [reflexivity | split; [reflexivity |]].
    unfold toLowerCase.
    destruct (not_surrogate_outside (upperAscii c) ltac:(lia)) as [HhC _].
    destruct (not_surrogate_outside c ltac:(lia)) as [Hhc _].
    rewrite (codePoints_single (upperAscii c) r) by now rewrite HhC.
    rewrite (codePoints_single c r) by now rewrite Hhc.
    cbn [lowerCodePoints].
    replace (upperAscii c =? 931) with false by (symmetry; apply Z.eqb_neq; lia).
    replace (c =? 931) with false by (symmetry; apply Z.eqb_neq; lia).
    cbn [andb]. rewrite (ascii_lower U HU _ Hup), (ascii_lower U HU c Hc), Hlow.
    f_equal. f_equal. apply lower_context. intros l.
    apply (nextIsCased_last U (upperAscii c) c l).
    + destruct Hsame as [-> | [H1 H2]]; trivial.
      now rewrite (proj2 (ascii_cased U HU _ H1)), (proj2 (ascii_cased U HU _ H2)).
    + destruct Hsame as [-> | [H1 H2]]; trivial.
      now rewrite (proj1 (ascii_cased U HU _ H1)), (proj1 (ascii_cased U HU _ H2)).
Qed.

Lemma option_label_capitalizes_witness :
  optionLabel unicodeExcerpt {| skill := js "python"; history := []; forecast := [] |}
  = (if (97 <=? 112) && (112 <=? 122) then 112 - 32 else 112) :: js "ython".
Proof.
  apply (proj1 (proj2 (option_label_capitalizes unicodeExcerpt
                         {| skill := js "python"; history := []; forecast := [] |})
                  112 (js "ython") eq_refl ltac:(lia) excerpt_basicLatin)).
Defined.

Example sample_labels :
  map (optionLabel unicodeExcerpt) sampleTrends
  = [js "Rust"; js "Cobol"; js "Python"; js "Go"]
  /\ toUpperCase unicodeExcerpt (js "ß") = js "SS".
Proof. split; vm_compute; reflexivity. Qed.

End DashboardFacts.

